(** * The FinMind and Gemini services of the stock dashboard

    A shallow embedding of [services/finmind.ts] and [services/gemini.ts]:
    identifier resolution over the cached stock list, the fetch-and-derive
    operations (market index, institutional flow, per-stock snapshot) and the
    generative-AI call; and of the two handlers of [App.tsx] that call them,
    [refreshMarket] and [handleSearch], on the state of the component.

    - JavaScript strings are sequences of UTF-16 code units ([jsstring]).
    - JavaScript numbers are IEEE 754 binary64 values (Rocq's primitive
      [float]), so [-], [/], [*], [+] and [>=] are the operations the engine
      runs.
    - An [async] function is a tree of effects ([Async]): it reads and writes
      the module variable [stockListCache], awaits [fetch] and [res.json()],
      logs to the console, returns or throws.  [run] executes one call to
      completion against an environment; [step] interleaves several calls at
      their [await]s. *)

From Stdlib Require Import ZArith NArith List Bool Ascii String Floats Lia.
From Stdlib Require Import Sorted.
Import ListNotations.

Set Implicit Arguments.
Set Warnings "-inexact-float".

(* ================================================================== *)
(** ** Strings *)

(** A string value: its UTF-16 code units. *)
Definition jsstring : Type := list N.

(** A literal of the source that is plain ASCII. *)
Definition js (s : string) : jsstring :=
  map N_of_ascii (list_ascii_of_string s).

(** [a === b] on strings. *)
Fixpoint str_eqb (a b : jsstring) : bool :=
  match a, b with
  | [], [] => true
  | x :: a', y :: b' => N.eqb x y && str_eqb a' b'
  | _, _ => false
  end.

(** WhiteSpace and LineTerminator of ECMAScript, the code units
    [String.prototype.trim] strips: TAB, LF, VT, FF, CR, SP, NBSP, the
    category Zs (U+1680, U+2000..U+200A, U+202F, U+205F, U+3000), LS, PS and
    the byte-order mark. *)
Definition isWhiteSpace (c : N) : bool :=
  ((9 <=? c) && (c <=? 13) || (c =? 32) || (c =? 0xA0) || (c =? 0x1680)
   || (0x2000 <=? c) && (c <=? 0x200A)
   || (c =? 0x2028) || (c =? 0x2029) || (c =? 0x202F) || (c =? 0x205F)
   || (c =? 0x3000) || (c =? 0xFEFF))%N.

Fixpoint trimStart (s : jsstring) : jsstring :=
  match s with
  | [] => []
  | c :: s' => if isWhiteSpace c then trimStart s' else s
  end.

Definition trimEnd (s : jsstring) : jsstring := rev (trimStart (rev s)).

(** [s.trim()] *)
Definition trim (s : jsstring) : jsstring := trimEnd (trimStart s).

(** The class [\d] of a regular expression without the [u] flag: 0..9. *)
Definition isDigit (c : N) : bool := ((48 <=? c) && (c <=? 57))%N.

(** [/^\d+$/.test(s)]: one digit at least, and nothing else. *)
Definition test_digits (s : jsstring) : bool :=
  match s with
  | [] => false
  | _ :: _ => forallb isDigit s
  end.

Fixpoint startsWith (s p : jsstring) {struct p} : bool :=
  match p, s with
  | [], _ => true
  | x :: p', y :: s' => N.eqb x y && startsWith s' p'
  | _ :: _, [] => false
  end.

(** [s.includes(sub)]: [sub] occurs in [s] at some position. *)
Fixpoint includes (s sub : jsstring) : bool :=
  startsWith s sub
  || match s with
     | [] => false
     | _ :: s' => includes s' sub
     end.

(** [!s] is true of the empty string only. *)
Definition falsy (s : jsstring) : bool :=
  match s with [] => true | _ :: _ => false end.

(* ================================================================== *)
(** ** Numbers *)

Open Scope float_scope.

(** [x.toFixed(fractionDigits)], kept as the number and the digit count it
    prints: no operation of the services reads its characters, they only
    store it ([volume]) or parse it back ([parseFloat]). *)
Inductive FixedString : Type :=
| toFixed (x : float) (fractionDigits : nat).

(** The integer [n] of Number.prototype.toFixed for a finite [m * 2^e > 0]
    and [f] fraction digits: [n / 10^f - m * 2^e] is as close to zero as
    possible, the larger [n] when two are as close. *)
Definition toFixed_n (m : positive) (e : Z) (f : nat) : Z :=
  let scaled := (Z.pos m * 10 ^ Z.of_nat f)%Z in
  if (0 <=? e)%Z then (scaled * 2 ^ e)%Z
  else ((2 * scaled + 2 ^ (- e)) / (2 * 2 ^ (- e)))%Z.

(** The Number value of the decimal [n / 10^f]: the quotient rounded to the
    nearest binary64, ties to even. *)
Definition decimal_value (n : Z) (f : nat) : float :=
  match n with
  | Zpos p =>
      SF2Prim (SFdiv prec emax (S754_finite false p 0)
                 (S754_finite false (Z.to_pos (10 ^ Z.of_nat f)) 0))
  | _ => 0
  end.

(** [parseFloat(x.toFixed(f))].  toFixed prints "NaN", "Infinity" and
    "-Infinity" for the values that are not finite and the Number's own
    string from 1e21 on; parseFloat reads each of them back as [x].
    Below 1e21 it prints an optional "-" (when [x < 0], which -0 is not) and
    the digits of [n] with a point before the last [f] of them. *)
Definition parseFloat (s : FixedString) : float :=
  let '(toFixed x f) := s in
  match Prim2SF x with
  | S754_nan => nan
  | S754_infinity _ => x
  | S754_zero _ => 0
  | S754_finite sign m e =>
      if 1e21 <=? abs x then x
      else
        let v := decimal_value (toFixed_n m e f) f in
        if sign then - v else v
  end.

(** [x >= 0] *)
Definition ge0 (x : float) : bool := 0 <=? x.

(** A finite Number: neither NaN nor an infinity. *)
Definition finite (x : float) : bool :=
  match Prim2SF x with
  | S754_zero _ | S754_finite _ _ _ => true
  | S754_infinity _ | S754_nan => false
  end.

(* ================================================================== *)
(** ** Rows of the provider's datasets

    The fields the services read, one record per dataset; field names are
    the provider's. *)

(** TaiwanStockInfo: the instrument list. *)
Module Info.
Record row : Type := { stock_id : jsstring; stock_name : jsstring }.
End Info.

(** TaiwanStockPrice: daily bars. *)
Module Price.
Record row : Type :=
  { date : jsstring; close : float; Trading_Volume : float }.
End Price.

(** TaiwanStockInstitutionalInvestors and
    TaiwanStockTotalInstitutionalInvestors: volume bought and sold by one
    investor class on one date. *)
Module Inst.
Record row : Type :=
  { date : jsstring; name : jsstring; buy : float; sell : float }.
End Inst.

(** TaiwanStockPER: valuation ratios. *)
Module Per.
Record row : Type := { date : jsstring; PER : float; PBR : float }.
End Per.

Inductive Dataset : Type :=
| TaiwanStockInfo
| TaiwanStockPrice
| TaiwanStockTotalInstitutionalInvestors
| TaiwanStockInstitutionalInvestors
| TaiwanStockPER.

Definition Row (d : Dataset) : Type :=
  match d with
  | TaiwanStockInfo => Info.row
  | TaiwanStockPrice => Price.row
  | TaiwanStockTotalInstitutionalInvestors => Inst.row
  | TaiwanStockInstitutionalInvestors => Inst.row
  | TaiwanStockPER => Per.row
  end.

(** [getFormattedDate(daysAgo)]: the ISO date of the day [daysAgo] days
    before the current one.  The clock is outside the model, so the date is
    kept as the offset it was asked for. *)
Inductive FormattedDate : Type :=
| getFormattedDate (daysAgo : nat).

(** The query string appended to [FINMIND_API_URL]. *)
Record Query : Type :=
  { data_id : option jsstring; start_date : option FormattedDate }.

(* ================================================================== *)
(** ** Exceptions, promises, responses *)

(** A thrown value: an Error object with its name and message. *)
Record JsError : Type := { error_name : jsstring; message : jsstring }.

(** [new Error(msg)] *)
Definition Error (msg : jsstring) : JsError :=
  {| error_name := js "Error"; message := msg |}.

(** What reading a property of [null] or [undefined] throws. *)
Definition TypeError (msg : jsstring) : JsError :=
  {| error_name := js "TypeError"; message := msg |}.

(** How a promise settles; for an [async] function, how a call ends:
    [Fulfilled v] when it returned [v], [Rejected e] when [e] was thrown out
    of it. *)
Inductive Settled (A : Type) : Type :=
| Fulfilled (a : A)
| Rejected (e : JsError).
Arguments Fulfilled {A} a.
Arguments Rejected {A} e.

(** The value [res.json()] parses: [null], or a value whose [data] property
    is absent ([None]) or an array of rows. *)
Inductive Json (d : Dataset) : Type :=
| JsonNull
| JsonValue (data : option (list (Row d))).
Arguments JsonNull {d}.
Arguments JsonValue {d} data.

(** A response of [fetch]: [res.ok], and what [res.json()] settles to
    (rejected when the body is not JSON). *)
Record Response (d : Dataset) : Type :=
  { ok : bool; body : Settled (Json d) }.

(** The prompt of the generative-AI request: the values the template
    interpolates. *)
Record Prompt : Type :=
  { prompt_id : jsstring;
    prompt_price : float;
    prompt_change : float;
    prompt_pct : float;
    prompt_per : option float;
    prompt_pbr : option float;
    prompt_foreign : option float;
    prompt_trust : option float;
    prompt_dealer : option float;
    prompt_recentHistory : list (jsstring * float * float) }.

(** The response of [generateContent]: its [text], possibly undefined. *)
Record GenerateContentResponse : Type := { text : option jsstring }.

(* ================================================================== *)
(** ** Asynchronous code *)

(** The body of an [async] function as a tree: what it does next, and how
    it goes on from the answer.  Awaiting a call of another [async] function
    of the module is [bind]: the callee runs in the caller's turn up to its
    own first [await] of the network.  The turn of the event loop that an
    [await] of a settled promise takes is not a node of the tree: the code
    that follows such an [await] here reads only its local variables. *)
Inductive Async (R : Type) : Type :=
| Ret (r : R)                                   (* return r *)
| Throw (e : JsError)                           (* throw e *)
| Fetch (d : Dataset) (q : Query)               (* await fetch(url) *)
    (k : Settled (Response d) -> Async R)
| ResJson (d : Dataset) (res : Response d)      (* await res.json() *)
    (k : Settled (Json d) -> Async R)
| ReadCache                                     (* stockListCache *)
    (k : option (list Info.row) -> Async R)
| WriteCache (l : list Info.row) (k : Async R)  (* stockListCache = l *)
| ConsoleError (label : jsstring) (e : JsError) (* console.error(label, e) *)
    (k : Async R)
| GenerateContent (p : Prompt)                  (* await ai.models.generateContent *)
    (k : Settled GenerateContentResponse -> Async R).
Arguments Ret {R} r.
Arguments Throw {R} e.
Arguments Fetch {R} d q k.
Arguments ResJson {R d} res k.
Arguments ReadCache {R} k.
Arguments WriteCache {R} l k.
Arguments ConsoleError {R} label e k.
Arguments GenerateContent {R} p k.

Fixpoint bind {A B : Type} (m : Async A) (f : A -> Async B) : Async B :=
  match m with
  | Ret a => f a
  | Throw e => Throw e
  | Fetch d q k => Fetch d q (fun r => bind (k r) f)
  | ResJson res k => ResJson res (fun r => bind (k r) f)
  | ReadCache k => ReadCache (fun c => bind (k c) f)
  | WriteCache l k => WriteCache l (bind k f)
  | ConsoleError label e k => ConsoleError label e (bind k f)
  | GenerateContent p k => GenerateContent p (fun r => bind (k r) f)
  end.

(** [try { m } catch (e) { h e }] *)
Fixpoint try_catch {A : Type} (m : Async A) (h : JsError -> Async A)
  : Async A :=
  match m with
  | Ret a => Ret a
  | Throw e => h e
  | Fetch d q k => Fetch d q (fun r => try_catch (k r) h)
  | ResJson res k => ResJson res (fun r => try_catch (k r) h)
  | ReadCache k => ReadCache (fun c => try_catch (k c) h)
  | WriteCache l k => WriteCache l (try_catch k h)
  | ConsoleError label e k => ConsoleError label e (try_catch k h)
  | GenerateContent p k => GenerateContent p (fun r => try_catch (k r) h)
  end.

(** [await p] on a settled promise: its value, or its reason thrown. *)
Definition await {A : Type} (p : Settled A) : Async A :=
  match p with
  | Fulfilled a => Ret a
  | Rejected e => Throw e
  end.

Definition fetch (d : Dataset) (q : Query) : Async (Response d) :=
  Fetch d q await.

Definition res_json {d : Dataset} (res : Response d) : Async (Json d) :=
  ResJson res await.

Definition generateContent (p : Prompt) : Async GenerateContentResponse :=
  GenerateContent p await.

Definition console_error (label : jsstring) (e : JsError) : Async unit :=
  ConsoleError label e (Ret tt).

Declare Scope async_scope.
Delimit Scope async_scope with async.
Bind Scope async_scope with Async.
Notation "x <- m ;; k" := (bind m (fun x => k))
  (at level 61, m at next level, right associativity) : async_scope.
Notation "m ;;; k" := (bind m (fun _ => k))
  (at level 61, right associativity) : async_scope.
Open Scope async_scope.

(** [json.data]: a TypeError on [null]. *)
Definition get_data {d : Dataset} (json : Json d)
  : Async (option (list (Row d))) :=
  match json with
  | JsonNull =>
      Throw (TypeError (js "Cannot read properties of null (reading 'data')"))
  | JsonValue data => Ret data
  end.

(** [a[i]]: undefined outside [0 .. a.length - 1]. *)
Definition item {A : Type} (a : list A) (i : Z) : option A :=
  if (i <? 0)%Z then None else nth_error a (Z.to_nat i).

(** [a.length] *)
Definition len {A : Type} (a : list A) : Z := Z.of_nat (List.length a).

(** Reading a property of [x]: a TypeError when [x] is undefined. *)
Definition defined {A : Type} (x : option A) : Async A :=
  match x with
  | Some a => Ret a
  | None => Throw (TypeError (js "Cannot read properties of undefined"))
  end.

(** [x || y] on a possibly undefined object. *)
Definition or_else {A : Type} (x : option A) (y : A) : A :=
  match x with Some a => a | None => y end.

(** [attempt m]: [m] run to its end, and how it settled. *)
Definition attempt {A : Type} (m : Async A) : Async (Settled A) :=
  try_catch (a <- m ;; Ret (Fulfilled a)) (fun e => Ret (Rejected e)).

(** [await Promise.all([a, b])]: both are started, in this order, and both
    run to their end whatever the other does; the pair of their values when
    both fulfil, a rejection when one rejects.  The tree takes the answer
    to [a] before it goes on with [b]; the one use, in [fetchStockData],
    has for [a] a single request, which shares nothing with [b]. *)
Definition Promise_all {A B : Type} (a : Async A) (b : Async B)
  : Async (A * B) :=
  ra <- attempt a ;;
  rb <- attempt b ;;
  match ra, rb with
  | Fulfilled x, Fulfilled y => Ret (x, y)
  | Rejected e, _ => Throw e
  | Fulfilled _, Rejected e => Throw e
  end.

(* ================================================================== *)
(** ** What the operations return (types.ts) *)

Module MarketIndex.
Record data : Type :=
  { price : float; change : float; pct : float;
    volume : FixedString; date : jsstring }.
(** [{ ...data, status }], or [{ status }] alone. *)
Record result : Type := { fields : option data; status : jsstring }.
End MarketIndex.

Module FundFlow.
Record data : Type := { total : float; date : jsstring; status : jsstring }.
(** [{ ...data, apiStatus }], or [{ apiStatus }] alone. *)
Record result : Type := { fields : option data; apiStatus : jsstring }.
End FundFlow.

Module InstitutionalData.
Record data : Type :=
  { date : jsstring; foreign : float; trust : float; dealer : float;
    total : float }.
(** [{ ...data, status }], or [{ status }] alone. *)
Record result : Type := { fields : option data; status : jsstring }.
End InstitutionalData.

Module StockInfo.
Record data : Type :=
  { name : jsstring; price : float; change : float; pct : float;
    volume : float; per : option float; pbr : option float;
    history : list Price.row; lastUpdate : jsstring }.
(** [{ id, ...data, status: 'success' }], or [{ error: true, id }]: the
    properties that are not set are undefined ([None]). *)
Record result : Type :=
  { id : jsstring; error : option bool;
    fields : option data; status : option jsstring }.
End StockInfo.

(* ================================================================== *)
(** ** services/finmind.ts *)

Definition noQuery : Query := {| data_id := None; start_date := None |}.

(** The label of the console message of [getStockList], in code units. *)
Definition stockList_label : jsstring :=
  [0x7121; 0x6CD5; 0x7372; 0x53D6; 0x80A1; 0x7968; 0x6E05; 0x55AE; 0x3A]%N.

(** [getStockList]: the cached list when there is one (an empty array is a
    cached list too: arrays are truthy); else one request, whose rows are
    stored when the answer has a [data]; else [[]]. *)
Definition getStockList : Async (list Info.row) :=
  ReadCache (fun stockListCache =>
    match stockListCache with
    | Some l => Ret l
    | None =>
        returned <-
          try_catch
            (res <- fetch TaiwanStockInfo noQuery ;;
             json <- res_json res ;;
             data <- get_data json ;;
             match data with
             | Some l => WriteCache l (Ret (Some l))
             | None => Ret None
             end)
            (fun e => console_error stockList_label e ;;; Ret None) ;;
        match returned with
        | Some l => Ret l
        | None => Ret []
        end
    end).

(** [s.stock_name === trimmed || s.stock_id === trimmed] *)
Definition exact_match (trimmed : jsstring) (s : Info.row) : bool :=
  str_eqb (Info.stock_name s) trimmed || str_eqb (Info.stock_id s) trimmed.

(** [s.stock_name.includes(trimmed)] *)
Definition fuzzy_match (trimmed : jsstring) (s : Info.row) : bool :=
  includes (Info.stock_name s) trimmed.

Definition resolveStockId (query : jsstring) : Async (option jsstring) :=
  let trimmed := trim query in
  if falsy trimmed then Ret None
  else if test_digits trimmed then Ret (Some trimmed)
  else
    list <- getStockList ;;
    match find (exact_match trimmed) list with
    | Some match_ => Ret (Some (Info.stock_id match_))
    | None =>
        match find (fuzzy_match trimmed) list with
        | Some fuzzyMatch => Ret (Some (Info.stock_id fuzzyMatch))
        | None => Ret None
        end
    end.

Definition fetchStockName (stockId : jsstring) : Async jsstring :=
  list <- getStockList ;;
  match find (fun s => str_eqb (Info.stock_id s) stockId) list with
  | Some match_ => Ret (Info.stock_name match_)
  | None => Ret stockId
  end.

(** [json.data && json.data.length > 0]: the rows, when there are some. *)
Definition some_rows {A : Type} (data : option (list A)) : option (list A) :=
  match data with
  | Some rows => if (0 <? len rows)%Z then Some rows else None
  | None => None
  end.

Definition fetchMarketIndex : Async MarketIndex.result :=
  let startDate := getFormattedDate 10 in
  try_catch
    (res <- fetch TaiwanStockPrice
              {| data_id := Some (js "TAIEX"); start_date := Some startDate |} ;;
     if negb (ok res) then Throw (Error (js "Network Error"))
     else
       json <- res_json res ;;
       data <- get_data json ;;
       match some_rows data with
       | Some rows =>
           latest <- defined (item rows (len rows - 1)) ;;
           let prev := or_else (item rows (len rows - 2)) latest in
           let change := Price.close latest - Price.close prev in
           let pct := (change / Price.close prev) * 100 in
           let volume := toFixed (Price.Trading_Volume latest / 100000000) 0 in
           Ret {| MarketIndex.fields :=
                    Some {| MarketIndex.price := Price.close latest;
                            MarketIndex.change := parseFloat (toFixed change 2);
                            MarketIndex.pct := parseFloat (toFixed pct 2);
                            MarketIndex.volume := volume;
                            MarketIndex.date := Price.date latest |};
                  MarketIndex.status := js "success" |}
       | None =>
           Ret {| MarketIndex.fields := None; MarketIndex.status := js "nodata" |}
       end)
    (fun error =>
       console_error (js "TAIEX Fetch Error:") error ;;;
       Ret {| MarketIndex.fields := None; MarketIndex.status := js "error" |}).

(** [data.filter(d => d.date === lastDate)] *)
Definition dailyData (lastDate : jsstring) (data : list Inst.row)
  : list Inst.row :=
  filter (fun d => str_eqb (Inst.date d) lastDate) data.

(** [let totalNet = 0; dailyData.forEach(item => { totalNet += item.buy - item.sell })] *)
Definition totalNet (daily : list Inst.row) : float :=
  fold_left (fun totalNet item => totalNet + (Inst.buy item - Inst.sell item))
    daily 0.

Definition fetchInstitutionalInvestors : Async FundFlow.result :=
  let startDate := getFormattedDate 10 in
  try_catch
    (res <- fetch TaiwanStockTotalInstitutionalInvestors
              {| data_id := None; start_date := Some startDate |} ;;
     if negb (ok res) then Throw (Error (js "Network Error"))
     else
       json <- res_json res ;;
       data <- get_data json ;;
       match some_rows data with
       | Some data =>
           last <- defined (item data (len data - 1)) ;;
           let lastDate := Inst.date last in
           let totalNet := totalNet (dailyData lastDate data) in
           Ret {| FundFlow.fields :=
                    Some {| FundFlow.total :=
                              parseFloat (toFixed (totalNet / 100000000) 2);
                            FundFlow.date := lastDate;
                            FundFlow.status :=
                              if ge0 totalNet then js "Buy" else js "Sell" |};
                  FundFlow.apiStatus := js "success" |}
       | None =>
           Ret {| FundFlow.fields := None; FundFlow.apiStatus := js "nodata" |}
       end)
    (fun error =>
       Ret {| FundFlow.fields := None; FundFlow.apiStatus := js "error" |}).

(** One round of the [forEach] of [fetchStockInstitutionalData] on the
    three accumulators [foreign], [trust], [dealer]. *)
Definition accumulate (acc : float * float * float) (item : Inst.row)
  : float * float * float :=
  let '(foreign, trust, dealer) := acc in
  let net := Inst.buy item - Inst.sell item in
  if str_eqb (Inst.name item) (js "Foreign_Investor")
  then (foreign + net, trust, dealer)
  else if str_eqb (Inst.name item) (js "Investment_Trust")
  then (foreign, trust + net, dealer)
  else if str_eqb (Inst.name item) (js "Dealer")
  then (foreign, trust, dealer + net)
  else (foreign, trust, dealer).

Definition fetchStockInstitutionalData (stockId : jsstring)
  : Async InstitutionalData.result :=
  let startDate := getFormattedDate 10 in
  try_catch
    (res <- fetch TaiwanStockInstitutionalInvestors
              {| data_id := Some stockId; start_date := Some startDate |} ;;
     json <- res_json res ;;
     data <- get_data json ;;
     match some_rows data with
     | Some data =>
         last <- defined (item data (len data - 1)) ;;
         let lastDate := Inst.date last in
         let '(foreign, trust, dealer) :=
           fold_left accumulate (dailyData lastDate data) (0, 0, 0) in
         Ret {| InstitutionalData.fields :=
                  Some {| InstitutionalData.date := lastDate;
                          InstitutionalData.foreign := foreign;
                          InstitutionalData.trust := trust;
                          InstitutionalData.dealer := dealer;
                          InstitutionalData.total := foreign + trust + dealer |};
                InstitutionalData.status := js "success" |}
     | None =>
         Ret {| InstitutionalData.fields := None;
                InstitutionalData.status := js "nodata" |}
     end)
    (fun error =>
       Ret {| InstitutionalData.fields := None;
              InstitutionalData.status := js "error" |}).

(** [{ error: true, id: stockId }] *)
Definition stock_error (stockId : jsstring) : StockInfo.result :=
  {| StockInfo.id := stockId; StockInfo.error := Some true;
     StockInfo.fields := None; StockInfo.status := None |}.

Definition fetchStockData (stockId : jsstring) : Async StockInfo.result :=
  let startDate := getFormattedDate 120 in
  let query := {| data_id := Some stockId; start_date := Some startDate |} in
  try_catch
    (both <- Promise_all (fetch TaiwanStockPrice query)
                         (fetchStockName stockId) ;;
     let '(priceRes, name) := both in
     priceJson <- res_json priceRes ;;
     priceData <- get_data priceJson ;;
     match some_rows priceData with
     | None => Ret (stock_error stockId)
     | Some historyData =>
         perRes <- fetch TaiwanStockPER query ;;
         perJson <- res_json perRes ;;
         perData <- get_data perJson ;;
         let latestPER :=
           match some_rows perData with
           | Some rows => item rows (len rows - 1)
           | None => None
           end in
         latest <- defined (item historyData (len historyData - 1)) ;;
         let prev := or_else (item historyData (len historyData - 2)) latest in
         Ret {| StockInfo.id := stockId;
                StockInfo.error := None;
                StockInfo.fields :=
                  Some {| StockInfo.name := name;
                          StockInfo.price := Price.close latest;
                          StockInfo.change :=
                            parseFloat
                              (toFixed (Price.close latest - Price.close prev) 2);
                          StockInfo.pct :=
                            parseFloat
                              (toFixed ((Price.close latest - Price.close prev)
                                        / Price.close prev * 100) 2);
                          StockInfo.volume := Price.Trading_Volume latest;
                          StockInfo.per := option_map Per.PER latestPER;
                          StockInfo.pbr := option_map Per.PBR latestPER;
                          StockInfo.history := historyData;
                          StockInfo.lastUpdate := Price.date latest |};
                StockInfo.status := Some (js "success") |}
     end)
    (fun error => Ret (stock_error stockId)).

(* ================================================================== *)
(** ** services/gemini.ts *)

(** [a.slice(-n)]: the last [n] elements, all of them when there are fewer. *)
Definition slice_last {A : Type} (n : nat) (a : list A) : list A :=
  skipn (List.length a - n) a.

(** [text || '{}']: the text unless it is undefined or empty. *)
Definition text_or_braces (t : option jsstring) : jsstring :=
  match t with
  | Some s => if falsy s then js "{}" else s
  | None => js "{}"
  end.

Section Gemini.

(** [JSON.parse]: the parsed value, or the SyntaxError it throws. *)
Variable Any : Type.
Variable JSON_parse : jsstring -> Settled Any.

Definition getGeminiAnalysis
  (stockData : StockInfo.result) (instData : InstitutionalData.result)
  : Async Any :=
  (* stockData.history.slice(-10): a TypeError when history is undefined *)
  stock <- defined (StockInfo.fields stockData) ;;
  let recentHistory :=
    map (fun h => (Price.date h, Price.close h, Price.Trading_Volume h))
      (slice_last 10 (StockInfo.history stock)) in
  let inst := InstitutionalData.fields instData in
  let prompt :=
    {| prompt_id := StockInfo.id stockData;
       prompt_price := StockInfo.price stock;
       prompt_change := StockInfo.change stock;
       prompt_pct := StockInfo.pct stock;
       prompt_per := StockInfo.per stock;
       prompt_pbr := StockInfo.pbr stock;
       prompt_foreign := option_map InstitutionalData.foreign inst;
       prompt_trust := option_map InstitutionalData.trust inst;
       prompt_dealer := option_map InstitutionalData.dealer inst;
       prompt_recentHistory := recentHistory |} in
  try_catch
    (response <- generateContent prompt ;;
     await (JSON_parse (text_or_braces (text response))))
    (fun error =>
       console_error (js "Gemini Analysis Failed:") error ;;;
       Throw error).

End Gemini.

(* ================================================================== *)
(** ** Running a call *)

(** What a call does that is seen outside it. *)
Inductive Effect : Type :=
| Requested (d : Dataset) (q : Query)       (* a request was sent *)
| Stored (l : list Info.row)                (* stockListCache was assigned *)
| Logged (label : jsstring) (e : JsError)   (* a console message *)
| Prompted (p : Prompt).                    (* a generative-AI request was sent *)

(** The module variable [stockListCache] ([None] for [null]) and the effects
    so far, the latest first. *)
Record World : Type :=
  { stockListCache : option (list Info.row); trace : list Effect }.

(** [let stockListCache = null], and nothing done yet. *)
Definition initial : World := {| stockListCache := None; trace := [] |}.

Definition log (ev : Effect) (w : World) : World :=
  {| stockListCache := stockListCache w; trace := ev :: trace w |}.

Definition store (l : list Info.row) (w : World) : World :=
  {| stockListCache := Some l; trace := Stored l :: trace w |}.

(** The provider and the AI service: how each request settles, given what
    happened before it. *)
Record Env : Type :=
  { net : list Effect -> forall d : Dataset, Query -> Settled (Response d);
    ai : list Effect -> Prompt -> Settled GenerateContentResponse }.

(** One call run to its end with no other call in between. *)
Fixpoint run {R : Type} (env : Env) (m : Async R) (w : World)
  : Settled R * World :=
  match m with
  | Ret r => (Fulfilled r, w)
  | Throw e => (Rejected e, w)
  | Fetch d q k => run env (k (net env (trace w) d q)) (log (Requested d q) w)
  | ResJson res k => run env (k (body res)) w
  | ReadCache k => run env (k (stockListCache w)) w
  | WriteCache l k => run env k (store l w)
  | ConsoleError label e k => run env k (log (Logged label e) w)
  | GenerateContent p k => run env (k (ai env (trace w) p)) (log (Prompted p) w)
  end.

(** The exported operations of [finmind.ts], and [getStockList]. *)
Inductive Operation : Type :=
| GetStockList
| ResolveStockId (query : jsstring)
| FetchStockName (stockId : jsstring)
| FetchMarketIndex
| FetchInstitutionalInvestors
| FetchStockInstitutionalData (stockId : jsstring)
| FetchStockData (stockId : jsstring).

(** The world after one call of [op]. *)
Definition perform (env : Env) (w : World) (op : Operation) : World :=
  match op with
  | GetStockList => snd (run env getStockList w)
  | ResolveStockId query => snd (run env (resolveStockId query) w)
  | FetchStockName stockId => snd (run env (fetchStockName stockId) w)
  | FetchMarketIndex => snd (run env fetchMarketIndex w)
  | FetchInstitutionalInvestors => snd (run env fetchInstitutionalInvestors w)
  | FetchStockInstitutionalData stockId =>
      snd (run env (fetchStockInstitutionalData stockId) w)
  | FetchStockData stockId => snd (run env (fetchStockData stockId) w)
  end.

(** Calls made one after the other, each awaited before the next. *)
Definition perform_all (env : Env) (ops : list Operation) (w : World) : World :=
  fold_left (perform env) ops w.

(** How many times [stockListCache] was assigned. *)
Fixpoint stores (t : list Effect) : nat :=
  match t with
  | [] => 0
  | Stored _ :: t' => S (stores t')
  | _ :: t' => stores t'
  end.

(** How many requests for the stock list were sent. *)
Fixpoint list_requests (t : list Effect) : nat :=
  match t with
  | [] => 0
  | Requested TaiwanStockInfo _ :: t' => S (list_requests t')
  | _ :: t' => list_requests t'
  end.

(* ================================================================== *)
(** ** Calls in flight together

    A call runs until its next [await] and is suspended there; the event
    loop then resumes any suspended call whose promise has settled.  The
    provider answers a request with any response, at any time. *)

(** A call runs up to its next [await] (where a request is sent), or to its
    end. *)
Fixpoint advance {R : Type} (m : Async R) (w : World) : Async R * World :=
  match m with
  | ReadCache k => advance (k (stockListCache w)) w
  | WriteCache l k => advance k (store l w)
  | ConsoleError label e k => advance k (log (Logged label e) w)
  | Fetch d q k => (m, log (Requested d q) w)
  | GenerateContent p k => (m, log (Prompted p) w)
  | ResJson _ _ | Ret _ | Throw _ => (m, w)
  end.

(** A call in flight: what is left of it. *)
Inductive Task : Type :=
| task (R : Type) (m : Async R).

Record System : Type := { world : World; pool : list Task }.

Inductive step : System -> System -> Prop :=
| step_call (R : Type) (m : Async R) (w : World) (p : list Task) :
    step {| world := w; pool := p |}
         {| world := snd (advance m w);
            pool := p ++ [task (fst (advance m w))] |}
| step_response (R : Type) (d : Dataset) (q : Query)
    (k : Settled (Response d) -> Async R) (r : Settled (Response d))
    (w : World) (p1 p2 : list Task) :
    step {| world := w; pool := p1 ++ task (Fetch d q k) :: p2 |}
         {| world := snd (advance (k r) w);
            pool := p1 ++ task (fst (advance (k r) w)) :: p2 |}
| step_json (R : Type) (d : Dataset) (res : Response d)
    (k : Settled (Json d) -> Async R) (w : World) (p1 p2 : list Task) :
    step {| world := w; pool := p1 ++ task (ResJson res k) :: p2 |}
         {| world := snd (advance (k (body res)) w);
            pool := p1 ++ task (fst (advance (k (body res)) w)) :: p2 |}
| step_generated (R : Type) (pr : Prompt)
    (k : Settled GenerateContentResponse -> Async R)
    (r : Settled GenerateContentResponse) (w : World) (p1 p2 : list Task) :
    step {| world := w; pool := p1 ++ task (GenerateContent pr k) :: p2 |}
         {| world := snd (advance (k r) w);
            pool := p1 ++ task (fst (advance (k r) w)) :: p2 |}.

(** Any number of steps. *)
Inductive steps : System -> System -> Prop :=
| steps_refl (s : System) : steps s s
| steps_step (s1 s2 s3 : System) : step s1 s2 -> steps s2 s3 -> steps s1 s3.

(** The page just loaded: no list cached, no call made. *)
Definition start : System := {| world := initial; pool := [] |}.

(* ================================================================== *)
(** ** App.tsx: the callers of the services

    The state of the component, and its two handlers that call the
    services.  A handler is run alone: [run] executes each call it awaits,
    and the state setters take effect in the order they are called. *)

Inductive View : Type := View_home | View_detail | View_loading.

Inductive ConnectionStatus : Type :=
| Status_connected | Status_error | Status_loading.

Inductive Trend : Type := bullish | bearish | neutral.

(** [{ ...data, score: report.score, trend }] *)
Record FullData : Type :=
  { stock : StockInfo.result; score : option float; trend : Trend }.

(** [DEFAULT_HOT_IDS] *)
Definition DEFAULT_HOT_IDS : list jsstring :=
  [js "2330"; js "2317"; js "2454"; js "2603"; js "2881"; js "0050"].

(** The three messages of [handleSearch], in code units. *)
Definition message_not_found : jsstring :=
  [0x627E; 0x4E0D; 0x5230; 0x8A72; 0x80A1; 0x7968; 0x540D; 0x7A31; 0x6216;
   0x4EE3; 0x865F; 0xFF0C; 0x8ACB; 0x91CD; 0x65B0; 0x8F38; 0x5165]%N.

Definition message_fetch_failed : jsstring :=
  [0x6578; 0x64DA; 0x6293; 0x53D6; 0x5931; 0x6557; 0xFF0C; 0x8ACB; 0x78BA;
   0x8A8D; 0x4EE3; 0x865F; 0x662F; 0x5426; 0x6B63; 0x78BA]%N.

Definition message_ai_failed : jsstring :=
  [0x41; 0x49; 0x20; 0x5206; 0x6790; 0x767C; 0x751F; 0x932F; 0x8AA4; 0xFF0C;
   0x8ACB; 0x7A0D; 0x5F8C; 0x518D; 0x8A66]%N.

(** [x] is truthy, for a property that is [true] or undefined. *)
Definition truthy (x : option bool) : bool :=
  match x with Some b => b | None => false end.

(** [await Promise.all(promises)] on promises that have settled: their
    values, or the reason of one that rejected. *)
Fixpoint Promise_all_settled {A : Type} (promises : list (Settled A))
  : Settled (list A) :=
  match promises with
  | [] => Fulfilled []
  | Fulfilled a :: rest =>
      match Promise_all_settled rest with
      | Fulfilled l => Fulfilled (a :: l)
      | Rejected e => Rejected e
      end
  | Rejected e :: _ => Rejected e
  end.

(** [[fullData, ...prev.filter(s => s.id !== stockId)].slice(0, 3)] *)
Definition push_history (fullData : FullData) (stockId : jsstring)
  (prev : list FullData) : list FullData :=
  firstn 3
    (fullData
     :: filter (fun s => negb (str_eqb (StockInfo.id (stock s)) stockId)) prev).

Section App.

(** [JSON.parse], and [report.score] on what it parsed: a TypeError when
    the report is [null], undefined when it has no such property. *)
Variable Any : Type.
Variable JSON_parse : jsstring -> Settled Any.
Variable report_score : Any -> Settled (option float).

(** The [useState] variables the two handlers set. *)
Record AppState : Type :=
  { view : View;
    marketIndex : option MarketIndex.result;
    fundFlow : option FundFlow.result;
    hotStocks : list StockInfo.result;
    searchHistory : list FullData;
    selectedStock : option FullData;
    analysis : option Any;
    isLoading : bool;
    searchError : jsstring;
    connectionStatus : ConnectionStatus }.

(** The component as mounted. *)
Definition mounted : AppState :=
  {| view := View_home; marketIndex := None; fundFlow := None;
     hotStocks := []; searchHistory := []; selectedStock := None;
     analysis := None; isLoading := false; searchError := [];
     connectionStatus := Status_loading |}.

Definition setView (v : View) (s : AppState) : AppState :=
  {| view := v; marketIndex := marketIndex s; fundFlow := fundFlow s;
     hotStocks := hotStocks s; searchHistory := searchHistory s;
     selectedStock := selectedStock s; analysis := analysis s;
     isLoading := isLoading s; searchError := searchError s;
     connectionStatus := connectionStatus s |}.

Definition setMarketIndex (x : MarketIndex.result) (s : AppState) : AppState :=
  {| view := view s; marketIndex := Some x; fundFlow := fundFlow s;
     hotStocks := hotStocks s; searchHistory := searchHistory s;
     selectedStock := selectedStock s; analysis := analysis s;
     isLoading := isLoading s; searchError := searchError s;
     connectionStatus := connectionStatus s |}.

Definition setFundFlow (x : FundFlow.result) (s : AppState) : AppState :=
  {| view := view s; marketIndex := marketIndex s; fundFlow := Some x;
     hotStocks := hotStocks s; searchHistory := searchHistory s;
     selectedStock := selectedStock s; analysis := analysis s;
     isLoading := isLoading s; searchError := searchError s;
     connectionStatus := connectionStatus s |}.

Definition setHotStocks (x : list StockInfo.result) (s : AppState) : AppState :=
  {| view := view s; marketIndex := marketIndex s; fundFlow := fundFlow s;
     hotStocks := x; searchHistory := searchHistory s;
     selectedStock := selectedStock s; analysis := analysis s;
     isLoading := isLoading s; searchError := searchError s;
     connectionStatus := connectionStatus s |}.

(** [setSearchHistory(prev => f(prev))] *)
Definition setSearchHistory (f : list FullData -> list FullData) (s : AppState)
  : AppState :=
  {| view := view s; marketIndex := marketIndex s; fundFlow := fundFlow s;
     hotStocks := hotStocks s; searchHistory := f (searchHistory s);
     selectedStock := selectedStock s; analysis := analysis s;
     isLoading := isLoading s; searchError := searchError s;
     connectionStatus := connectionStatus s |}.

Definition setSelectedStock (x : FullData) (s : AppState) : AppState :=
  {| view := view s; marketIndex := marketIndex s; fundFlow := fundFlow s;
     hotStocks := hotStocks s; searchHistory := searchHistory s;
     selectedStock := Some x; analysis := analysis s;
     isLoading := isLoading s; searchError := searchError s;
     connectionStatus := connectionStatus s |}.

Definition setAnalysis (x : Any) (s : AppState) : AppState :=
  {| view := view s; marketIndex := marketIndex s; fundFlow := fundFlow s;
     hotStocks := hotStocks s; searchHistory := searchHistory s;
     selectedStock := selectedStock s; analysis := Some x;
     isLoading := isLoading s; searchError := searchError s;
     connectionStatus := connectionStatus s |}.

Definition setIsLoading (x : bool) (s : AppState) : AppState :=
  {| view := view s; marketIndex := marketIndex s; fundFlow := fundFlow s;
     hotStocks := hotStocks s; searchHistory := searchHistory s;
     selectedStock := selectedStock s; analysis := analysis s;
     isLoading := x; searchError := searchError s;
     connectionStatus := connectionStatus s |}.

Definition setSearchError (x : jsstring) (s : AppState) : AppState :=
  {| view := view s; marketIndex := marketIndex s; fundFlow := fundFlow s;
     hotStocks := hotStocks s; searchHistory := searchHistory s;
     selectedStock := selectedStock s; analysis := analysis s;
     isLoading := isLoading s; searchError := x;
     connectionStatus := connectionStatus s |}.

Definition setConnectionStatus (x : ConnectionStatus) (s : AppState)
  : AppState :=
  {| view := view s; marketIndex := marketIndex s; fundFlow := fundFlow s;
     hotStocks := hotStocks s; searchHistory := searchHistory s;
     selectedStock := selectedStock s; analysis := analysis s;
     isLoading := isLoading s; searchError := searchError s;
     connectionStatus := x |}.

(** [data.pct > 0 ? 'bullish' : 'bearish'] *)
Definition trend_of (data : StockInfo.result) : Trend :=
  match StockInfo.fields data with
  | Some d => if 0 <? StockInfo.pct d then bullish else bearish
  | None => bearish
  end.

(** The [try] block of [handleSearch]: how it ends ([Fulfilled] also when
    it returns early), the state and the world it leaves. *)
Definition handleSearch_try (env : Env) (query : jsstring) (s : AppState)
  (w : World) : Settled unit * AppState * World :=
  match run env (resolveStockId query) w with
  | (Rejected e, w) => (Rejected e, s, w)
  | (Fulfilled None, w) | (Fulfilled (Some []), w) =>     (* !stockId *)
      (Fulfilled tt, setIsLoading false (setSearchError message_not_found s), w)
  | (Fulfilled (Some stockId), w) =>
      let s := setView View_loading s in
      match run env (fetchStockData stockId) w with
      | (Rejected e, w) => (Rejected e, s, w)
      | (Fulfilled data, w) =>
          if truthy (StockInfo.error data)
          then (Fulfilled tt,
                setView View_home (setSearchError message_fetch_failed s), w)
          else
            match run env (fetchStockInstitutionalData stockId) w with
            | (Rejected e, w) => (Rejected e, s, w)
            | (Fulfilled inst, w) =>
                match run env (getGeminiAnalysis JSON_parse data inst) w with
                | (Rejected e, w) => (Rejected e, s, w)
                | (Fulfilled report, w) =>
                    match report_score report with
                    | Rejected e => (Rejected e, s, w)
                    | Fulfilled score =>
                        let fullData :=
                          {| stock := data; score := score;
                             trend := trend_of data |} in
                        (Fulfilled tt,
                         setView View_detail
                           (setSearchHistory (push_history fullData stockId)
                              (setAnalysis report
                                 (setSelectedStock fullData s))),
                         w)
                    end
                end
            end
      end
  end.

Definition handleSearch (env : Env) (query : jsstring) (s : AppState)
  (w : World) : AppState * World :=
  if falsy query then (s, w)
  else
    let s := setSearchError [] (setIsLoading true s) in
    let '(ended, s, w) := handleSearch_try env query s w in
    let s :=
      match ended with
      | Fulfilled _ => s
      | Rejected _ => setView View_home (setSearchError message_ai_failed s)
      end in
    (setIsLoading false s, w).

(** [refreshMarket], as far as the state of the component goes.  The six
    calls of [fetchStockData] are started in one turn, before any answer:
    each reads the cache as it is then, so each is run from the world the
    first two calls left. *)
Definition refreshMarket (env : Env) (s : AppState) (w : World) : AppState :=
  let s := setConnectionStatus Status_loading (setIsLoading true s) in
  let s :=
    match run env (Promise_all fetchMarketIndex fetchInstitutionalInvestors) w
    with
    | (Rejected _, _) => setConnectionStatus Status_error s
    | (Fulfilled (idx, flow), w) =>
        let s := setFundFlow flow (setMarketIndex idx s) in
        let stockPromises :=
          map (fun id => fst (run env (fetchStockData id) w)) DEFAULT_HOT_IDS in
        match Promise_all_settled stockPromises with
        | Rejected _ => setConnectionStatus Status_error s
        | Fulfilled stocks =>
            setConnectionStatus Status_connected
              (setHotStocks
                 (filter (fun s => negb (truthy (StockInfo.error s))) stocks) s)
        end
    end in
  setIsLoading false s.

End App.

(* ================================================================== *)
(** ** Vocabulary of the properties *)

(** [sub] occurs in [s]. *)
Definition occurs_in (sub s : jsstring) : Prop :=
  exists a b, s = a ++ sub ++ b.

(** The list a call of [getStockList] returns. *)
Definition stockList (env : Env) (w : World) : list Info.row :=
  match fst (run env getStockList w) with
  | Fulfilled l => l
  | Rejected _ => []
  end.

(** What the request of [getStockList] gave, when the list is not cached. *)
Definition fetched_list (r : Settled (Response TaiwanStockInfo))
  : option (list Info.row) :=
  match r with
  | Fulfilled res =>
      match body res with
      | Fulfilled (JsonValue data) => data
      | _ => None
      end
  | Rejected _ => None
  end.

(** The request was answered, and the body parsed to a value that is not
    null, whose [data] is [data]. *)
Definition answers {d : Dataset} (r : Settled (Response d))
  (data : option (list (Row d))) : Prop :=
  exists res, r = Fulfilled res /\ body res = Fulfilled (JsonValue data).

(** The same, with [res.ok]. *)
Definition answers_ok {d : Dataset} (r : Settled (Response d))
  (data : option (list (Row d))) : Prop :=
  exists res,
    r = Fulfilled res /\ ok res = true /\ body res = Fulfilled (JsonValue data).

(** The queries of the operations. *)
Definition taiex : Query :=
  {| data_id := Some (js "TAIEX"); start_date := Some (getFormattedDate 10) |}.
Definition market_flow : Query :=
  {| data_id := None; start_date := Some (getFormattedDate 10) |}.
Definition stock_flow (stockId : jsstring) : Query :=
  {| data_id := Some stockId; start_date := Some (getFormattedDate 10) |}.
Definition stock_history (stockId : jsstring) : Query :=
  {| data_id := Some stockId; start_date := Some (getFormattedDate 120) |}.

(** How a request fails: rejected by the network, answered with a status
    that is not ok (for the operations that test [res.ok]), a body that is
    not JSON, or a body that is [null]. *)
Inductive failure {d : Dataset} (tests_ok : bool)
  : Settled (Response d) -> Prop :=
| network_failure (e : JsError) : failure tests_ok (Rejected e)
| status_failure (res : Response d) :
    tests_ok = true -> ok res = false -> failure tests_ok (Fulfilled res)
| parse_failure (res : Response d) (e : JsError) :
    body res = Rejected e -> failure tests_ok (Fulfilled res)
| null_failure (res : Response d) :
    body res = Fulfilled JsonNull -> failure tests_ok (Fulfilled res).

(** The record [fetchStockInstitutionalData] builds from the rows of the
    last date. *)
Definition institutional_of (lastDate : jsstring) (daily : list Inst.row)
  : InstitutionalData.data :=
  let '(foreign, trust, dealer) := fold_left accumulate daily (0, 0, 0) in
  {| InstitutionalData.date := lastDate;
     InstitutionalData.foreign := foreign;
     InstitutionalData.trust := trust;
     InstitutionalData.dealer := dealer;
     InstitutionalData.total := foreign + trust + dealer |}.

(** [acc += item.buy - item.sell] *)
Definition add_net (acc : float) (item : Inst.row) : float :=
  acc + (Inst.buy item - Inst.sell item).

(** [item.name === cls] *)
Definition of_class (cls : string) (item : Inst.row) : bool :=
  str_eqb (Inst.name item) (js cls).

(** One of the three classes [fetchStockInstitutionalData] adds up. *)
Definition three_classes (item : Inst.row) : bool :=
  of_class "Foreign_Investor" item || of_class "Investment_Trust" item
  || of_class "Dealer" item.

(** Dates compare as strings do: code unit by code unit. *)
Fixpoint str_leb (a b : jsstring) : bool :=
  match a, b with
  | [], _ => true
  | _ :: _, [] => false
  | x :: a', y :: b' =>
      if (x <? y)%N then true else if (x =? y)%N then str_leb a' b' else false
  end.

(** [a.date <= b.date] *)
Definition not_after (a b : Inst.row) : Prop :=
  str_leb (Inst.date a) (Inst.date b) = true.

(** What a call may do to the cache when no other call runs meanwhile: with
    a list cached it leaves the list in place, assigns nothing and sends no
    request for the list; with none cached it assigns at most once, and
    then the cache holds a list. *)
Definition respects_cache {R : Type} (m : Async R) : Prop :=
  forall env w,
    let w' := snd (run env m w) in
    match stockListCache w with
    | Some l =>
        stockListCache w' = Some l /\
        stores (trace w') = stores (trace w) /\
        list_requests (trace w') = list_requests (trace w)
    | None =>
        stores (trace w') =
        (stores (trace w)
         + match stockListCache w' with Some _ => 1 | None => 0 end)%nat
    end.

(** The cache was assigned as many times as it shows: once when it holds a
    list, never when it holds none. *)
Definition populated_once (w : World) : Prop :=
  stores (trace w) = match stockListCache w with Some _ => 1 | None => 0 end%nat.

(** A settled call, as what is left of it. *)
Definition settled {R : Type} (r : Settled R) : Async R :=
  match r with
  | Fulfilled v => Ret v
  | Rejected e => Throw e
  end.

(** The same dataset. *)
Definition Dataset_eqb (a b : Dataset) : bool :=
  match a, b with
  | TaiwanStockInfo, TaiwanStockInfo
  | TaiwanStockPrice, TaiwanStockPrice
  | TaiwanStockTotalInstitutionalInvestors,
    TaiwanStockTotalInstitutionalInvestors
  | TaiwanStockInstitutionalInvestors, TaiwanStockInstitutionalInvestors
  | TaiwanStockPER, TaiwanStockPER => true
  | _, _ => false
  end.

(** How many requests for the dataset [d] were sent. *)
Fixpoint requests_of (d : Dataset) (t : list Effect) : nat :=
  match t with
  | [] => 0
  | Requested d' _ :: t' =>
      ((if Dataset_eqb d d' then 1 else 0) + requests_of d t')%nat
  | _ :: t' => requests_of d t'
  end.

(** The request was answered with a [data] that has rows. *)
Definition has_rows {d : Dataset} (r : Settled (Response d)) : bool :=
  match r with
  | Fulfilled res =>
      match body res with
      | Fulfilled (JsonValue data) =>
          match some_rows data with Some _ => true | None => false end
      | _ => false
      end
  | Rejected _ => false
  end.

(** [handleSearch] left the selection as it was: the selected stock, its
    analysis and the search history. *)
Definition same_selection {Any : Type} (s s' : AppState Any) : Prop :=
  selectedStock s' = selectedStock s /\
  analysis s' = analysis s /\
  searchHistory s' = searchHistory s.

(** The identifiers of the search history. *)
Definition history_ids (h : list FullData) : list jsstring :=
  map (fun x => StockInfo.id (stock x)) h.

(** How a call can end, whatever the provider and the AI service answer,
    whenever they do, and whatever the cache holds when the call reads it
    (other calls may have assigned it meanwhile): every value it returns
    satisfies [P], every exception it throws satisfies [Q]. *)
Fixpoint ends_with {R : Type} (P : R -> Prop) (Q : JsError -> Prop)
  (m : Async R) : Prop :=
  match m with
  | Ret r => P r
  | Throw e => Q e
  | Fetch d q k => forall r, ends_with P Q (k r)
  | ResJson res k => ends_with P Q (k (body res))
  | ReadCache k => forall c, ends_with P Q (k c)
  | WriteCache _ k => ends_with P Q k
  | ConsoleError _ _ k => ends_with P Q k
  | GenerateContent _ k => forall r, ends_with P Q (k r)
  end.

(** The call returns a value that satisfies [P]; it throws nothing. *)
Definition returns {R : Type} (P : R -> Prop) (m : Async R) : Prop :=
  ends_with P (fun _ => False) m.

(** The call sends nothing to the AI service, whatever it is answered. *)
Fixpoint asks_no_ai {R : Type} (m : Async R) : Prop :=
  match m with
  | Ret _ | Throw _ => True
  | Fetch d q k => forall r, asks_no_ai (k r)
  | ResJson res k => asks_no_ai (k (body res))
  | ReadCache k => forall c, asks_no_ai (k c)
  | WriteCache _ k => asks_no_ai k
  | ConsoleError _ _ k => asks_no_ai k
  | GenerateContent _ _ => False
  end.

(** How many requests were sent to the AI service. *)
Fixpoint prompts (t : list Effect) : nat :=
  match t with
  | [] => 0
  | Prompted _ :: t' => S (prompts t')
  | _ :: t' => prompts t'
  end.

(** The data of a result are there exactly with the status of success. *)
Definition with_status {D : Type} (fields : option D) (status : jsstring)
  : Prop :=
  (status = js "success" /\ fields <> None) \/
  ((status = js "nodata" \/ status = js "error") /\ fields = None).

(** What is left of a call in flight returns, and throws nothing. *)
Definition task_returns (t : Task) : Prop :=
  match t with task m => returns (fun _ => True) m end.

(* ================================================================== *)
(** ** Sample data and environments *)

(** 2330, listed as the three characters U+53F0 U+7A4D U+96FB. *)
Definition row_2330 : Info.row :=
  {| Info.stock_id := js "2330";
     Info.stock_name := [0x53F0; 0x7A4D; 0x96FB]%N |}.

(** 2317, listed as U+9D3B U+6D77. *)
Definition row_2317 : Info.row :=
  {| Info.stock_id := js "2317"; Info.stock_name := [0x9D3B; 0x6D77]%N |}.

(** The fund 00632R, whose identifier is not a number. *)
Definition row_00632R : Info.row :=
  {| Info.stock_id := js "00632R";
     Info.stock_name :=
       [0x5143; 0x5927; 0x53F0; 0x7063; 0x35; 0x30; 0x53CD; 0x31]%N |}.

Definition sample_list : list Info.row := [row_2317; row_2330; row_00632R].

(** A world whose cache holds [l]. *)
Definition cached (l : list Info.row) : World :=
  {| stockListCache := Some l; trace := [] |}.

(** No network: every request is rejected. *)
Definition offline : Env :=
  {| net := fun _ _ _ => Rejected (TypeError (js "Failed to fetch"));
     ai := fun _ _ => Rejected (TypeError (js "Failed to fetch")) |}.

(** A request answered with status ok and a body whose [data] is [data]. *)
Definition served (d : Dataset) (data : option (list (Row d)))
  : Settled (Response d) :=
  Fulfilled {| ok := true; body := Fulfilled (JsonValue data) |}.

(** A provider that answers every request with status ok and the rows
    given for its dataset. *)
Definition provider (info : option (list Info.row))
  (prices : option (list Price.row)) (market flows : option (list Inst.row))
  (ratios : option (list Per.row)) : Env :=
  {| net := fun _ d _ =>
       match d return Settled (Response d) with
       | TaiwanStockInfo => served TaiwanStockInfo info
       | TaiwanStockPrice => served TaiwanStockPrice prices
       | TaiwanStockTotalInstitutionalInvestors =>
           served TaiwanStockTotalInstitutionalInvestors market
       | TaiwanStockInstitutionalInvestors =>
           served TaiwanStockInstitutionalInvestors flows
       | TaiwanStockPER => served TaiwanStockPER ratios
       end;
     ai := fun _ _ => Rejected (TypeError (js "Failed to fetch")) |}.

(** A bar of the day [date] closing at [close]. *)
Definition bar (date : string) (close : float) : Price.row :=
  {| Price.date := js date; Price.close := close;
     Price.Trading_Volume := 1000000 |}.

(** Two bars closing at 100 and 105, served for every price request. *)
Definition two_bars : Env :=
  provider None (Some [bar "2024-01-02" 100; bar "2024-01-03" 105])
    None None None.

(** One bar closing at 100. *)
Definition one_bar : Env :=
  provider None (Some [bar "2024-01-02" 100]) None None None.

(** A row of the flow datasets. *)
Definition flow (date name : string) (buy sell : float) : Inst.row :=
  {| Inst.date := js date; Inst.name := js name;
     Inst.buy := buy; Inst.sell := sell |}.

(** Two days of flows; the last day has a row of a fourth class. *)
Definition sample_flows : list Inst.row :=
  [ flow "2024-01-02" "Foreign_Investor" 9e10 1e10;
    flow "2024-01-03" "Foreign_Investor" 10e10 4e10;
    flow "2024-01-03" "Foreign_Dealer_Self" 5e10 2e10;
    flow "2024-01-03" "Investment_Trust" 3e10 3.5e10;
    flow "2024-01-03" "Dealer" 1e10 0.5e10 ].

(** The sample flows, served for both flow datasets. *)
Definition flows_served : Env :=
  provider None None (Some sample_flows) (Some sample_flows) None.

(** Every dataset answered with an empty [data]. *)
Definition empty_answers : Env :=
  provider (Some []) (Some []) (Some []) (Some []) (Some []).

(** Four environments, one for each way a request fails. *)
Definition failing (r : forall d : Dataset, Settled (Response d)) : Env :=
  {| net := fun _ d _ => r d;
     ai := fun _ _ => Rejected (TypeError (js "Failed to fetch")) |}.

Definition status_500 : Env :=
  failing (fun d => Fulfilled {| ok := false; body := Fulfilled (JsonValue None) |}).

Definition not_json : Env :=
  failing (fun d =>
    Fulfilled {| ok := true;
                 body := Rejected {| error_name := js "SyntaxError";
                                     message := js "Unexpected token <" |} |}).

Definition null_body : Env :=
  failing (fun d => Fulfilled {| ok := true; body := Fulfilled JsonNull |}).

(** A snapshot as [fetchStockData] returns it. *)
Definition sample_stock : StockInfo.result :=
  {| StockInfo.id := js "2330"; StockInfo.error := None;
     StockInfo.fields :=
       Some {| StockInfo.name := [0x53F0; 0x7A4D; 0x96FB]%N;
               StockInfo.price := 105; StockInfo.change := 5;
               StockInfo.pct := 5; StockInfo.volume := 1000000;
               StockInfo.per := None; StockInfo.pbr := None;
               StockInfo.history :=
                 [bar "2024-01-02" 100; bar "2024-01-03" 105];
               StockInfo.lastUpdate := js "2024-01-03" |};
     StockInfo.status := Some (js "success") |}.

Definition sample_inst : InstitutionalData.result :=
  {| InstitutionalData.fields := None;
     InstitutionalData.status := js "nodata" |}.

(** A parser that accepts the text [{}] only. *)
Definition parse_braces (s : jsstring) : Settled unit :=
  if str_eqb s (js "{}") then Fulfilled tt
  else Rejected {| error_name := js "SyntaxError";
                   message := js "Unexpected token" |}.

(** An AI service that answers with text that is not JSON. *)
Definition chatty : Env :=
  {| net := fun _ _ _ => Rejected (TypeError (js "Failed to fetch"));
     ai := fun _ _ => Fulfilled {| text := Some (js "Sorry, no.") |} |}.

(** Prices are served; the request for the ratios is rejected. *)
Definition no_ratios : Env :=
  {| net := fun _ d _ =>
       match d return Settled (Response d) with
       | TaiwanStockPER => Rejected (TypeError (js "Failed to fetch"))
       | TaiwanStockPrice =>
           served TaiwanStockPrice
             (Some [bar "2024-01-02" 100; bar "2024-01-03" 105])
       | d' => served d' None
       end;
     ai := fun _ _ => Rejected (TypeError (js "Failed to fetch")) |}.

(** Prices and ratios are served; the request for the list is rejected. *)
Definition no_list : Env :=
  {| net := fun _ d _ =>
       match d return Settled (Response d) with
       | TaiwanStockInfo => Rejected (TypeError (js "Failed to fetch"))
       | TaiwanStockPrice =>
           served TaiwanStockPrice
             (Some [bar "2024-01-02" 100; bar "2024-01-03" 105])
       | d' => served d' None
       end;
     ai := fun _ _ => Rejected (TypeError (js "Failed to fetch")) |}.

(** An AI service whose answer has no text. *)
Definition speechless : Env :=
  {| net := fun _ _ _ => Rejected (TypeError (js "Failed to fetch"));
     ai := fun _ _ => Fulfilled {| text := None |} |}.

(** [report.score] of a report whose score is 75. *)
Definition score_75 (report : unit) : Settled (option float) :=
  Fulfilled (Some 75).

(* ================================================================== *)
(** * Properties *)

(** ** Rounding *)

Example parseFloat_5 : parseFloat (toFixed 5 2) = 5.
Proof. reflexivity. Qed.

Example parseFloat_half_up : parseFloat (toFixed 0.125 2) = 0.13.
Proof. reflexivity. Qed.

Example parseFloat_negative : parseFloat (toFixed (-2.5) 0) = -3.
Proof. reflexivity. Qed.

Example parseFloat_1_005 : parseFloat (toFixed 1.005 2) = 1.
Proof. reflexivity. Qed.

(** Below a binary point ([e < 0]) the integer of [toFixed] is within one
    half of [m * 2^e * 10^f], the upper one of two that are as near; at or
    above it the product is an integer, and is that integer. *)
Lemma toFixed_n_nearest (m : positive) (e : Z) (f : nat) :
  let n := toFixed_n m e f in
  let scaled := (Z.pos m * 10 ^ Z.of_nat f)%Z in
  ((e < 0 ->
    - 2 ^ (- e) <= 2 * (scaled - n * 2 ^ (- e)) < 2 ^ (- e)) /\
   (0 <= e -> n = scaled * 2 ^ e))%Z.
Proof.
  cbv zeta. unfold toFixed_n. split.
  - intros He. destruct (Z.leb_spec 0 e) as [H|_]; [lia|].
    assert (Hd : (0 < 2 ^ (- e))%Z) by (apply Z.pow_pos_nonneg; lia).
    set (d := (2 ^ (- e))%Z) in *.
    set (s := (Z.pos m * 10 ^ Z.of_nat f)%Z).
    pose proof (Z.div_mod (2 * s + d) (2 * d) ltac:(lia)) as Hdm.
    pose proof (Z.mod_pos_bound (2 * s + d) (2 * d) ltac:(lia)) as Hb.
    nia.
  - intros He. destruct (Z.leb_spec 0 e) as [_|H]; [reflexivity | lia].
Qed.

(** ** Strings and lists *)

Lemma str_eqb_eq (a b : jsstring) : str_eqb a b = true <-> a = b.
Proof.
  revert b; induction a as [|x a IH]; intros [|y b]; simpl;
    try (split; [discriminate | congruence]); try tauto.
  rewrite andb_true_iff, N.eqb_eq, IH.
  split; [intros [-> ->]; reflexivity | intros [= -> ->]; auto].
Qed.

Lemma str_eqb_neq (a b : jsstring) : str_eqb a b = false <-> a <> b.
Proof.
  rewrite <- str_eqb_eq. destruct (str_eqb a b); split; congruence.
Qed.

Lemma str_eqb_refl (a : jsstring) : str_eqb a a = true.
Proof. apply str_eqb_eq; reflexivity. Qed.

Lemma startsWith_spec (s p : jsstring) :
  startsWith s p = true <-> exists b, s = p ++ b.
Proof.
  revert s; induction p as [|x p IH]; intros s; simpl.
  - split; [intros _; exists s; reflexivity | reflexivity].
  - destruct s as [|y s].
    + split; [discriminate | intros [b Hb]; discriminate].
    + rewrite andb_true_iff, N.eqb_eq, IH. split.
      * intros [-> [b ->]]. exists b; reflexivity.
      * intros [b [= -> ->]]. split; [reflexivity | exists b; reflexivity].
Qed.

Lemma includes_spec (s sub : jsstring) :
  includes s sub = true <-> occurs_in sub s.
Proof.
  unfold occurs_in. induction s as [|c s IH].
  - simpl. rewrite orb_false_r, startsWith_spec. split.
    + intros [b Hb]. exists [], b. exact Hb.
    + intros [a [b Hab]]. destruct a; simpl in Hab.
      * exists b; exact Hab.
      * discriminate.
  - cbn [includes]. rewrite orb_true_iff, startsWith_spec, IH. split.
    + intros [[b Hb] | [a [b Hab]]].
      * exists [], b. exact Hb.
      * exists (c :: a), b. simpl; congruence.
    + intros [[|c' a] [b Hab]]; simpl in Hab.
      * left. exists b; exact Hab.
      * right. injection Hab as -> ->. exists a, b; reflexivity.
Qed.

Lemma includes_false (s sub : jsstring) :
  includes s sub = false <-> ~ occurs_in sub s.
Proof.
  rewrite <- includes_spec. destruct (includes s sub); split; congruence.
Qed.

(** [find] returns the first element that satisfies the test. *)
Lemma find_first {A : Type} (p : A -> bool) (l1 : list A) (m : A) (l2 : list A) :
  p m = true ->
  (forall x, In x l1 -> p x = false) ->
  find p (l1 ++ m :: l2) = Some m.
Proof.
  intros Hm. induction l1 as [|x l1 IH]; intros Hl1; simpl.
  - rewrite Hm; reflexivity.
  - rewrite (Hl1 x) by (left; reflexivity).
    apply IH. intros y Hy. apply Hl1. right; exact Hy.
Qed.

Lemma find_nothing {A : Type} (p : A -> bool) (l : list A) :
  (forall x, In x l -> p x = false) -> find p l = None.
Proof.
  induction l as [|x l IH]; intros H; simpl; [reflexivity|].
  rewrite (H x) by (left; reflexivity).
  apply IH. intros y Hy. apply H. right; exact Hy.
Qed.

(** *** Trimming *)

Lemma trimStart_white (ws s : jsstring) :
  forallb isWhiteSpace ws = true -> trimStart (ws ++ s) = trimStart s.
Proof.
  induction ws as [|c ws IH]; simpl; [reflexivity|].
  rewrite andb_true_iff. intros [-> H]. auto.
Qed.

Lemma trimStart_blank (ws : jsstring) :
  forallb isWhiteSpace ws = true -> trimStart ws = [].
Proof.
  intros H. rewrite <- (app_nil_r ws). rewrite trimStart_white; auto.
Qed.

Lemma forallb_rev {A : Type} (p : A -> bool) (l : list A) :
  forallb p (rev l) = forallb p l.
Proof.
  induction l as [|x l IH]; simpl; [reflexivity|].
  rewrite forallb_app, IH. simpl. rewrite andb_true_r. apply andb_comm.
Qed.

Lemma trimEnd_white (s ws : jsstring) :
  forallb isWhiteSpace ws = true -> trimEnd (s ++ ws) = trimEnd s.
Proof.
  intros H. unfold trimEnd. rewrite rev_app_distr, trimStart_white; auto.
  rewrite forallb_rev; exact H.
Qed.

Lemma isDigit_not_white (c : N) : isDigit c = true -> isWhiteSpace c = false.
Proof.
  unfold isDigit, isWhiteSpace. rewrite andb_true_iff, !N.leb_le.
  intros [Hlo Hhi].
  repeat match goal with
         | |- context [(?a <=? ?b)%N] =>
             destruct (N.leb_spec a b); try lia
         | |- context [(?a =? ?b)%N] =>
             destruct (N.eqb_spec a b); try lia
         end; reflexivity.
Qed.

Lemma trimStart_digits (ds : jsstring) :
  forallb isDigit ds = true -> trimStart ds = ds.
Proof.
  destruct ds as [|c ds]; simpl; [reflexivity|].
  rewrite andb_true_iff. intros [Hc _].
  rewrite (isDigit_not_white c Hc). reflexivity.
Qed.

Lemma trimEnd_digits (ds : jsstring) :
  forallb isDigit ds = true -> trimEnd ds = ds.
Proof.
  intros H. unfold trimEnd.
  rewrite trimStart_digits by (rewrite forallb_rev; exact H).
  apply rev_involutive.
Qed.

Lemma test_digits_all (ds : jsstring) :
  test_digits ds = true -> forallb isDigit ds = true /\ ds <> [].
Proof.
  destruct ds; simpl; [discriminate|]. intros H; split; [exact H | discriminate].
Qed.

Lemma trim_blank (q : jsstring) :
  forallb isWhiteSpace q = true -> trim q = [].
Proof.
  intros H. unfold trim. rewrite (trimStart_blank q H). reflexivity.
Qed.

Lemma trim_padded_digits (ws1 ds ws2 : jsstring) :
  forallb isWhiteSpace ws1 = true ->
  forallb isWhiteSpace ws2 = true ->
  test_digits ds = true ->
  trim (ws1 ++ ds ++ ws2) = ds.
Proof.
  intros H1 H2 Hd. destruct (test_digits_all ds Hd) as [Hall Hne].
  unfold trim. rewrite trimStart_white by exact H1.
  destruct ds as [|c ds]; [congruence|].
  assert (Hc : isWhiteSpace c = false).
  { apply isDigit_not_white. simpl in Hall.
    apply andb_true_iff in Hall. tauto. }
  change ((c :: ds) ++ ws2) with (c :: ds ++ ws2).
  cbn [trimStart]. rewrite Hc.
  change (c :: ds ++ ws2) with ((c :: ds) ++ ws2).
  rewrite trimEnd_white by exact H2.
  apply trimEnd_digits; exact Hall.
Qed.

(** ** Running [bind] and [try_catch] *)

Lemma run_bind {A B : Type} (env : Env) (m : Async A) (f : A -> Async B)
  (w : World) :
  run env (bind m f) w =
  match run env m w with
  | (Fulfilled a, w') => run env (f a) w'
  | (Rejected e, w') => (Rejected e, w')
  end.
Proof.
  revert w; induction m; intros w; simpl; auto.
Qed.

Lemma run_try_catch {A : Type} (env : Env) (m : Async A)
  (h : JsError -> Async A) (w : World) :
  run env (try_catch m h) w =
  match run env m w with
  | (Fulfilled a, w') => (Fulfilled a, w')
  | (Rejected e, w') => run env (h e) w'
  end.
Proof.
  revert w; induction m; intros w; simpl; auto.
Qed.

(** A [try] whose handler returns never throws. *)
Lemma try_catch_fulfils {A : Type} (env : Env) (m : Async A)
  (h : JsError -> Async A) (w : World) :
  (forall e w', exists v, fst (run env (h e) w') = Fulfilled v) ->
  exists v, fst (run env (try_catch m h) w) = Fulfilled v.
Proof.
  intros Hh. rewrite run_try_catch.
  destruct (run env m w) as [[a|e] w']; simpl; eauto.
Qed.

(** ** The stock list *)

(** Every way a call of [getStockList] goes. *)
Lemma getStockList_run (env : Env) (w : World) :
  run env getStockList w =
  match stockListCache w with
  | Some l => (Fulfilled l, w)
  | None =>
      let w1 := log (Requested TaiwanStockInfo noQuery) w in
      match net env (trace w) TaiwanStockInfo noQuery with
      | Rejected e => (Fulfilled [], log (Logged stockList_label e) w1)
      | Fulfilled res =>
          match body res with
          | Rejected e => (Fulfilled [], log (Logged stockList_label e) w1)
          | Fulfilled JsonNull =>
              (Fulfilled [],
               log (Logged stockList_label
                      (TypeError
                         (js "Cannot read properties of null (reading 'data')")))
                 w1)
          | Fulfilled (JsonValue None) => (Fulfilled [], w1)
          | Fulfilled (JsonValue (Some l)) => (Fulfilled l, store l w1)
          end
      end
  end.
Proof.
  unfold getStockList. cbn [run].
  destruct (stockListCache w) as [l|]; [reflexivity|].
  cbn. destruct (net env (trace w) TaiwanStockInfo noQuery) as [res|e]; cbn;
    [|reflexivity].
  destruct (body res) as [[|[l|]]|e]; reflexivity.
Qed.

Lemma getStockList_fulfils (env : Env) (w : World) :
  fst (run env getStockList w) = Fulfilled (stockList env w).
Proof.
  unfold stockList. rewrite getStockList_run.
  destruct (stockListCache w) as [l|]; [reflexivity|]. cbn.
  destruct (net env (trace w) TaiwanStockInfo noQuery) as [res|e]; cbn;
    [|reflexivity].
  destruct (body res) as [[|[l|]]|e]; reflexivity.
Qed.

Lemma stockList_cached (env : Env) (w : World) (l : list Info.row) :
  stockListCache w = Some l -> stockList env w = l.
Proof.
  intros H. unfold stockList. rewrite getStockList_run, H. reflexivity.
Qed.

Lemma stockList_fetched (env : Env) (w : World) :
  stockListCache w = None ->
  stockList env w =
  match fetched_list (net env (trace w) TaiwanStockInfo noQuery) with
  | Some l => l
  | None => []
  end.
Proof.
  intros H. unfold stockList, fetched_list. rewrite getStockList_run, H. cbn.
  destruct (net env (trace w) TaiwanStockInfo noQuery) as [res|e]; cbn;
    [|reflexivity].
  destruct (body res) as [[|[l|]]|e]; reflexivity.
Qed.

Lemma resolveStockId_lookup (env : Env) (w : World) (query : jsstring) :
  trim query <> [] ->
  test_digits (trim query) = false ->
  fst (run env (resolveStockId query) w) =
  Fulfilled
    match find (exact_match (trim query)) (stockList env w) with
    | Some m => Some (Info.stock_id m)
    | None =>
        match find (fuzzy_match (trim query)) (stockList env w) with
        | Some m => Some (Info.stock_id m)
        | None => None
        end
    end.
Proof.
  intros Hne Hnd. unfold resolveStockId.
  destruct (trim query) as [|c t] eqn:Ht; [congruence|].
  cbn [falsy]. rewrite Hnd. rewrite run_bind.
  pose proof (getStockList_fulfils env w) as Hl.
  destruct (run env getStockList w) as [r w']. simpl in Hl. subst r.
  destruct (find _ (stockList env w)); [reflexivity|].
  destruct (find _ (stockList env w)); reflexivity.
Qed.

Lemma fetchStockName_lookup (env : Env) (w : World) (stockId : jsstring) :
  fst (run env (fetchStockName stockId) w) =
  Fulfilled
    match find (fun s => str_eqb (Info.stock_id s) stockId) (stockList env w) with
    | Some m => Info.stock_name m
    | None => stockId
    end.
Proof.
  unfold fetchStockName. rewrite run_bind.
  pose proof (getStockList_fulfils env w) as Hl.
  destruct (run env getStockList w) as [r w']. simpl in Hl. subst r.
  destruct (find _ (stockList env w)); reflexivity.
Qed.

(* ================================================================== *)
(** ** Identifier resolution *)

(** C1, as amended.  With [t] the trimmed query and [L] the list
    [getStockList] returns (the cached one when there is one):
    an empty [t] gives null; a [t] of digits only is returned itself;
    otherwise the identifier of the first entry of [L] whose name or
    identifier equals [t]; when there is none, the identifier of the first
    entry whose name contains [t]; when there is none either, null. *)
Theorem resolveStockId_first_match (env : Env) (w : World) (query : jsstring) :
  let t := trim query in
  let L := stockList env w in
  let result := fst (run env (resolveStockId query) w) in
  (t = [] -> result = Fulfilled None) /\
  (test_digits t = true -> result = Fulfilled (Some t)) /\
  (t <> [] -> test_digits t = false ->
   (forall l1 m l2,
       L = l1 ++ m :: l2 ->
       Info.stock_name m = t \/ Info.stock_id m = t ->
       (forall s, In s l1 -> Info.stock_name s <> t /\ Info.stock_id s <> t) ->
       result = Fulfilled (Some (Info.stock_id m))) /\
   ((forall s, In s L -> Info.stock_name s <> t /\ Info.stock_id s <> t) ->
    (forall l1 m l2,
        L = l1 ++ m :: l2 ->
        occurs_in t (Info.stock_name m) ->
        (forall s, In s l1 -> ~ occurs_in t (Info.stock_name s)) ->
        result = Fulfilled (Some (Info.stock_id m))) /\
    ((forall s, In s L -> ~ occurs_in t (Info.stock_name s)) ->
     result = Fulfilled None))).
Proof.
  intros t L result. split; [|split].
  - intros Ht. subst result. unfold resolveStockId. fold t. rewrite Ht.
    reflexivity.
  - intros Hd. subst result. unfold resolveStockId. fold t.
    destruct t as [|c t']; [discriminate|]. cbn [falsy]. rewrite Hd.
    reflexivity.
  - intros Hne Hnd.
    assert (Hrun := resolveStockId_lookup env w query Hne Hnd).
    fold t L result in Hrun.
    assert (Hexact : forall s, Info.stock_name s <> t /\ Info.stock_id s <> t ->
                               exact_match t s = false).
    { intros s [Hn Hi]. unfold exact_match.
      apply str_eqb_neq in Hn, Hi. rewrite Hn, Hi. reflexivity. }
    split.
    + intros l1 m l2 HL Hm Hl1. rewrite Hrun, HL.
      rewrite find_first; [reflexivity| |].
      * unfold exact_match. apply orb_true_iff.
        destruct Hm as [Hm|Hm]; [left|right]; apply str_eqb_eq; exact Hm.
      * intros s Hs. apply Hexact, Hl1, Hs.
    + intros Hnone.
      rewrite (find_nothing (exact_match t) L) in Hrun
        by (intros s Hs; apply Hexact, Hnone, Hs).
      split.
      * intros l1 m l2 HL Hm Hl1. rewrite Hrun, HL.
        rewrite find_first; [reflexivity| |].
        -- apply includes_spec; exact Hm.
        -- intros s Hs. apply includes_false, Hl1, Hs.
      * intros Hno. rewrite Hrun.
        rewrite find_nothing; [reflexivity|].
        intros s Hs. apply includes_false, Hno, Hs.
Qed.

(** The fuzzy case at work: the query U+53F0 U+7A4D between two spaces finds
    2330 in the cached sample list. *)
Lemma resolveStockId_first_match_witness :
  fst (run offline
         (resolveStockId [32; 0x53F0; 0x7A4D; 32]%N) (cached sample_list))
  = Fulfilled (Some (js "2330")).
Proof.
  pose proof (resolveStockId_first_match offline (cached sample_list)
                [32; 0x53F0; 0x7A4D; 32]%N) as H.
  cbv zeta in H. destruct H as [_ [_ H]].
  specialize (H ltac:(discriminate) eq_refl). destruct H as [_ H].
  assert (Hnone : forall s, In s (stockList offline (cached sample_list)) ->
                    Info.stock_name s <> trim [32; 0x53F0; 0x7A4D; 32]%N /\
                    Info.stock_id s <> trim [32; 0x53F0; 0x7A4D; 32]%N).
  { intros s [<-|[<-|[<-|[]]]]; split; apply str_eqb_neq; reflexivity. }
  destruct (H Hnone) as [Hfuzzy _].
  apply (Hfuzzy [row_2317] row_2330 [row_00632R]).
  - reflexivity.
  - exists [], [0x96FB%N]. reflexivity.
  - intros s [<-|[]]. apply includes_false. reflexivity.
Defined.

(** C1 as stated fails on an identifier that is not a number: for the query
    00632R no listed name equals or contains the query, so the claim gives
    null, and the code returns the identifier of the entry whose
    [stock_id] is the query. *)
Lemma resolveStockId_first_match_counterexample :
  test_digits (trim (js "00632R")) = false /\
  existsb (fun s => str_eqb (Info.stock_name s) (js "00632R")) sample_list
  = false /\
  existsb (fun s => includes (Info.stock_name s) (js "00632R")) sample_list
  = false /\
  fst (run offline (resolveStockId (js "00632R")) (cached sample_list))
  = Fulfilled (Some (js "00632R")) /\
  fst (run offline (resolveStockId (js "00632R")) (cached sample_list))
  <> Fulfilled None.
Proof.
  repeat split; try reflexivity. discriminate.
Qed.

(** C8.  A query that is empty or all white space makes [resolveStockId] a
    bare [return null]: no read of the cache, no request, the world is left
    as it was.  Digits between white space give the digits, which are not
    the query when there was white space. *)
Theorem resolveStockId_blank_or_padded_digits :
  (forall query : jsstring,
      forallb isWhiteSpace query = true ->
      resolveStockId query = Ret None /\
      forall env w, run env (resolveStockId query) w = (Fulfilled None, w)) /\
  (forall ws1 ds ws2 : jsstring,
      forallb isWhiteSpace ws1 = true ->
      forallb isWhiteSpace ws2 = true ->
      test_digits ds = true ->
      resolveStockId (ws1 ++ ds ++ ws2) = Ret (Some ds) /\
      (ws1 ++ ws2 <> [] -> ds <> ws1 ++ ds ++ ws2)).
Proof.
  split.
  - intros query H.
    assert (E : resolveStockId query = Ret None).
    { unfold resolveStockId. rewrite (trim_blank query H). reflexivity. }
    split; [exact E | intros env w; rewrite E; reflexivity].
  - intros ws1 ds ws2 H1 H2 Hd. split.
    + unfold resolveStockId. rewrite (trim_padded_digits ws1 ds ws2 H1 H2 Hd).
      destruct ds as [|c ds]; [discriminate|]. cbn [falsy]. rewrite Hd.
      reflexivity.
    + intros Hne Heq. apply (f_equal (@List.length N)) in Heq.
      rewrite !length_app in Heq.
      destruct ws1, ws2; simpl in *; try congruence; lia.
Qed.

Lemma resolveStockId_blank_or_padded_digits_witness :
  resolveStockId [32; 9; 0x3000]%N = Ret None /\
  resolveStockId (js " 2330  ") = Ret (Some (js "2330")) /\
  js "2330" <> js " 2330  ".
Proof.
  destruct resolveStockId_blank_or_padded_digits as [Hblank Hdigits].
  split; [apply Hblank; reflexivity|].
  destruct (Hdigits (js " ") (js "2330") (js "  ")) as [E Hne];
    try reflexivity.
  split; [exact E | apply Hne; discriminate].
Defined.

(* ================================================================== *)
(** ** The listed name *)

(** C9, as amended.  With [L] the list [getStockList] returns:
    [fetchStockName] returns the name of the first entry of [L] with that
    identifier, and the identifier itself when no entry has it, in
    particular when the list is not cached and could not be fetched.  It
    always returns a string; that string is not empty when the identifier is
    not and no entry with that identifier has an empty name. *)
Theorem fetchStockName_listed_or_id (env : Env) (w : World) (stockId : jsstring) :
  let L := stockList env w in
  let result := fst (run env (fetchStockName stockId) w) in
  (forall l1 m l2,
      L = l1 ++ m :: l2 ->
      Info.stock_id m = stockId ->
      (forall s, In s l1 -> Info.stock_id s <> stockId) ->
      result = Fulfilled (Info.stock_name m)) /\
  ((forall s, In s L -> Info.stock_id s <> stockId) ->
   result = Fulfilled stockId) /\
  (stockListCache w = None ->
   fetched_list (net env (trace w) TaiwanStockInfo noQuery) = None ->
   result = Fulfilled stockId) /\
  (exists v,
      result = Fulfilled v /\
      (stockId <> [] ->
       (forall s, In s L -> Info.stock_id s = stockId -> Info.stock_name s <> []) ->
       v <> [])).
Proof.
  intros L result.
  assert (Hrun := fetchStockName_lookup env w stockId). fold L result in Hrun.
  assert (Hnone : (forall s, In s L -> Info.stock_id s <> stockId) ->
                  result = Fulfilled stockId).
  { intros H. rewrite Hrun. rewrite find_nothing; [reflexivity|].
    intros s Hs. apply str_eqb_neq, H, Hs. }
  split; [|split; [exact Hnone|split]].
  - intros l1 m l2 HL Hm Hl1. rewrite Hrun, HL.
    rewrite find_first; [reflexivity| |].
    + apply str_eqb_eq; exact Hm.
    + intros s Hs. apply str_eqb_neq, Hl1, Hs.
  - intros Hc Hf. apply Hnone. subst L.
    rewrite (stockList_fetched env w Hc), Hf. intros s [].
  - rewrite Hrun.
    destruct (find (fun s => str_eqb (Info.stock_id s) stockId) L) as [m|] eqn:F.
    + exists (Info.stock_name m). split; [reflexivity|].
      intros _ Hnames. apply find_some in F. destruct F as [Hin Heq].
      apply (Hnames m Hin). apply str_eqb_eq; exact Heq.
    + exists stockId. split; [reflexivity | intros H _; exact H].
Qed.

Lemma fetchStockName_listed_or_id_witness :
  fst (run offline (fetchStockName (js "2330")) (cached sample_list))
  = Fulfilled [0x53F0; 0x7A4D; 0x96FB]%N /\
  fst (run offline (fetchStockName (js "2330")) initial)
  = Fulfilled (js "2330").
Proof.
  split.
  - pose proof (fetchStockName_listed_or_id offline (cached sample_list)
                  (js "2330")) as H.
    cbv zeta in H. destruct H as [H _].
    apply (H [row_2317] row_2330 [row_00632R]).
    + reflexivity.
    + reflexivity.
    + intros s [<-|[]]; discriminate.
  - pose proof (fetchStockName_listed_or_id offline initial (js "2330")) as H.
    cbv zeta in H. destruct H as [_ [_ [H _]]].
    apply H; reflexivity.
Defined.

(** C9 as stated fails when the entry is listed with an empty name: the
    result is that empty name, for an identifier that is not empty. *)
Lemma fetchStockName_listed_or_id_counterexample :
  fst (run offline (fetchStockName (js "2330"))
         (cached [{| Info.stock_id := js "2330"; Info.stock_name := [] |}]))
  = Fulfilled [] /\ js "2330" <> [].
Proof.
  split; [reflexivity | discriminate].
Qed.

(* ================================================================== *)
(** ** Reading the last rows of a series *)

Lemma len_app {A : Type} (a b : list A) : len (a ++ b) = (len a + len b)%Z.
Proof. unfold len. rewrite length_app. lia. Qed.

Lemma len_nonneg {A : Type} (a : list A) : (0 <= len a)%Z.
Proof. unfold len. lia. Qed.

Lemma item_app_r {A : Type} (a b : list A) (i : Z) :
  (0 <= i)%Z -> item (a ++ b) (len a + i) = item b i.
Proof.
  intros Hi. unfold item, len.
  destruct (Z.ltb_spec (Z.of_nat (List.length a) + i) 0); [lia|].
  destruct (Z.ltb_spec i 0); [lia|].
  rewrite nth_error_app2 by lia. f_equal. lia.
Qed.

(** [a[a.length - 1]] is the last element. *)
Lemma item_last {A : Type} (init : list A) (x : A) :
  item (init ++ [x]) (len (init ++ [x]) - 1) = Some x.
Proof.
  rewrite len_app. change (len [x]) with 1%Z.
  replace (len init + 1 - 1)%Z with (len init + 0)%Z by lia.
  rewrite item_app_r by lia. reflexivity.
Qed.

(** [a[a.length - 2]] is the one before it. *)
Lemma item_previous {A : Type} (init : list A) (x y : A) :
  item (init ++ [x; y]) (len (init ++ [x; y]) - 2) = Some x.
Proof.
  rewrite len_app. change (len [x; y]) with 2%Z.
  replace (len init + 2 - 2)%Z with (len init + 0)%Z by lia.
  rewrite item_app_r by lia. reflexivity.
Qed.

Lemma some_rows_nonempty {A : Type} (init : list A) (x : A) :
  some_rows (Some (init ++ [x])) = Some (init ++ [x]).
Proof.
  unfold some_rows. rewrite len_app. change (len [x]) with 1%Z.
  pose proof (len_nonneg init).
  destruct (Z.ltb_spec 0 (len init + 1)); [reflexivity | lia].
Qed.

(** A series that is not empty ends in a last row. *)
Lemma some_rows_last {A : Type} (data : option (list A)) (rows : list A) :
  some_rows data = Some rows ->
  data = Some rows /\ exists init x, rows = init ++ [x].
Proof.
  unfold some_rows. destruct data as [l|]; [|discriminate].
  destruct (Z.ltb_spec 0 (len l)); [|discriminate].
  intros [= ->]. split; [reflexivity|].
  destruct (exists_last (l := rows)) as [init [x ->]].
  - intros ->. unfold len in *. simpl in *. lia.
  - exists init, x. reflexivity.
Qed.

Lemma some_rows_none {A : Type} (data : option (list A)) :
  some_rows data = None <-> data = None \/ data = Some [].
Proof.
  unfold some_rows. destruct data as [[|x l]|]; simpl.
  - split; auto.
  - unfold len; simpl. split; [discriminate | intros [H|H]; discriminate].
  - split; auto.
Qed.

(** ** Running the pieces of an operation *)

Lemma run_await {A : Type} (env : Env) (p : Settled A) (w : World) :
  run env (await p) w = (p, w).
Proof. destruct p; reflexivity. Qed.

Lemma run_fetch (env : Env) (d : Dataset) (q : Query) (w : World) :
  run env (fetch d q) w = (net env (trace w) d q, log (Requested d q) w).
Proof. unfold fetch. cbn [run]. apply run_await. Qed.

Lemma run_res_json (env : Env) (d : Dataset) (res : Response d) (w : World) :
  run env (res_json res) w = (body res, w).
Proof. unfold res_json. cbn [run]. apply run_await. Qed.

Lemma run_attempt {A : Type} (env : Env) (m : Async A) (w : World) :
  run env (attempt m) w = (Fulfilled (fst (run env m w)), snd (run env m w)).
Proof.
  unfold attempt. rewrite run_try_catch, run_bind.
  destruct (run env m w) as [[a|e] w']; reflexivity.
Qed.

Lemma run_Promise_all {A B : Type} (env : Env) (a : Async A) (b : Async B)
  (w : World) :
  run env (Promise_all a b) w =
  let (ra, w1) := run env a w in
  let (rb, w2) := run env b w1 in
  (match ra, rb with
   | Fulfilled x, Fulfilled y => Fulfilled (x, y)
   | Rejected e, _ => Rejected e
   | Fulfilled _, Rejected e => Rejected e
   end, w2).
Proof.
  unfold Promise_all. rewrite run_bind, run_attempt.
  destruct (run env a w) as [ra w1]. cbn [fst snd].
  rewrite run_bind, run_attempt.
  destruct (run env b w1) as [rb w2]. cbn [fst snd].
  destruct ra, rb; reflexivity.
Qed.

Ltac run_step :=
  first [ rewrite run_try_catch | rewrite run_bind | rewrite run_fetch
        | rewrite run_res_json | rewrite run_await | rewrite run_Promise_all ];
  cbn [fst snd].

(** ** The market index *)

Lemma fetchMarketIndex_failure (env : Env) (w : World) :
  failure true (net env (trace w) TaiwanStockPrice taiex) ->
  fst (run env fetchMarketIndex w) =
  Fulfilled {| MarketIndex.fields := None; MarketIndex.status := js "error" |}.
Proof.
  intros H. unfold fetchMarketIndex. fold taiex. repeat run_step.
  inversion H as [e He|res _ Hok He|res e Hb He|res Hb He]; clear H.
  - reflexivity.
  - rewrite Hok. reflexivity.
  - destruct (ok res); cbn; [|reflexivity].
    repeat run_step. rewrite Hb. reflexivity.
  - destruct (ok res); cbn; [|reflexivity].
    repeat run_step. rewrite Hb. reflexivity.
Qed.

Lemma fetchMarketIndex_nodata (env : Env) (w : World)
  (data : option (list Price.row)) :
  answers_ok (net env (trace w) TaiwanStockPrice taiex) data ->
  some_rows data = None ->
  fst (run env fetchMarketIndex w) =
  Fulfilled {| MarketIndex.fields := None; MarketIndex.status := js "nodata" |}.
Proof.
  intros [res [Hr [Hok Hb]]] Hnone. unfold fetchMarketIndex. fold taiex.
  repeat run_step. rewrite Hr, Hok. cbn. repeat run_step. rewrite Hb. cbn.
  rewrite Hnone. reflexivity.
Qed.

Lemma fetchMarketIndex_success (env : Env) (w : World)
  (init : list Price.row) (latest : Price.row) :
  answers_ok (net env (trace w) TaiwanStockPrice taiex)
    (Some (init ++ [latest])) ->
  let rows := init ++ [latest] in
  let prev := or_else (item rows (len rows - 2)) latest in
  let change := Price.close latest - Price.close prev in
  fst (run env fetchMarketIndex w) =
  Fulfilled
    {| MarketIndex.fields :=
         Some {| MarketIndex.price := Price.close latest;
                 MarketIndex.change := parseFloat (toFixed change 2);
                 MarketIndex.pct :=
                   parseFloat (toFixed (change / Price.close prev * 100) 2);
                 MarketIndex.volume :=
                   toFixed (Price.Trading_Volume latest / 100000000) 0;
                 MarketIndex.date := Price.date latest |};
       MarketIndex.status := js "success" |}.
Proof.
  intros [res [Hr [Hok Hb]]] rows prev change.
  unfold fetchMarketIndex. fold taiex.
  repeat run_step. rewrite Hr, Hok. cbn [negb]. repeat run_step.
  rewrite Hb. cbn [get_data bind]. rewrite some_rows_nonempty.
  repeat run_step. rewrite item_last. reflexivity.
Qed.

(** ** Institutional flow, the whole market *)

Lemma fetchInstitutionalInvestors_failure (env : Env) (w : World) :
  failure true
    (net env (trace w) TaiwanStockTotalInstitutionalInvestors market_flow) ->
  fst (run env fetchInstitutionalInvestors w) =
  Fulfilled {| FundFlow.fields := None; FundFlow.apiStatus := js "error" |}.
Proof.
  intros H. unfold fetchInstitutionalInvestors. fold market_flow.
  repeat run_step.
  inversion H as [e He|res _ Hok He|res e Hb He|res Hb He]; clear H.
  - reflexivity.
  - rewrite Hok. reflexivity.
  - destruct (ok res); cbn; [|reflexivity].
    repeat run_step. rewrite Hb. reflexivity.
  - destruct (ok res); cbn; [|reflexivity].
    repeat run_step. rewrite Hb. reflexivity.
Qed.

Lemma fetchInstitutionalInvestors_nodata (env : Env) (w : World)
  (data : option (list Inst.row)) :
  answers_ok
    (net env (trace w) TaiwanStockTotalInstitutionalInvestors market_flow)
    data ->
  some_rows data = None ->
  fst (run env fetchInstitutionalInvestors w) =
  Fulfilled {| FundFlow.fields := None; FundFlow.apiStatus := js "nodata" |}.
Proof.
  intros [res [Hr [Hok Hb]]] Hnone.
  unfold fetchInstitutionalInvestors. fold market_flow.
  repeat run_step. rewrite Hr, Hok. cbn. repeat run_step. rewrite Hb. cbn.
  rewrite Hnone. reflexivity.
Qed.

Lemma fetchInstitutionalInvestors_success (env : Env) (w : World)
  (init : list Inst.row) (last : Inst.row) :
  answers_ok
    (net env (trace w) TaiwanStockTotalInstitutionalInvestors market_flow)
    (Some (init ++ [last])) ->
  let net := totalNet (dailyData (Inst.date last) (init ++ [last])) in
  fst (run env fetchInstitutionalInvestors w) =
  Fulfilled
    {| FundFlow.fields :=
         Some {| FundFlow.total := parseFloat (toFixed (net / 100000000) 2);
                 FundFlow.date := Inst.date last;
                 FundFlow.status := if ge0 net then js "Buy" else js "Sell" |};
       FundFlow.apiStatus := js "success" |}.
Proof.
  intros [res [Hr [Hok Hb]]] net.
  unfold fetchInstitutionalInvestors. fold market_flow.
  repeat run_step. rewrite Hr, Hok. cbn [negb]. repeat run_step.
  rewrite Hb. cbn [get_data bind]. rewrite some_rows_nonempty.
  repeat run_step. rewrite item_last. reflexivity.
Qed.

(** ** Institutional flow, one stock *)

Lemma fetchStockInstitutionalData_failure (env : Env) (w : World)
  (stockId : jsstring) :
  failure false
    (net env (trace w) TaiwanStockInstitutionalInvestors (stock_flow stockId)) ->
  fst (run env (fetchStockInstitutionalData stockId) w) =
  Fulfilled {| InstitutionalData.fields := None;
               InstitutionalData.status := js "error" |}.
Proof.
  intros H. unfold fetchStockInstitutionalData. fold (stock_flow stockId).
  repeat run_step.
  inversion H as [e He|res Hf Hok He|res e Hb He|res Hb He]; clear H.
  - reflexivity.
  - discriminate Hf.
  - cbn. repeat run_step. rewrite Hb. reflexivity.
  - cbn. repeat run_step. rewrite Hb. reflexivity.
Qed.

Lemma fetchStockInstitutionalData_nodata (env : Env) (w : World)
  (stockId : jsstring) (data : option (list Inst.row)) :
  answers
    (net env (trace w) TaiwanStockInstitutionalInvestors (stock_flow stockId))
    data ->
  some_rows data = None ->
  fst (run env (fetchStockInstitutionalData stockId) w) =
  Fulfilled {| InstitutionalData.fields := None;
               InstitutionalData.status := js "nodata" |}.
Proof.
  intros [res [Hr Hb]] Hnone.
  unfold fetchStockInstitutionalData. fold (stock_flow stockId).
  repeat run_step. rewrite Hr. cbn. repeat run_step. rewrite Hb. cbn.
  rewrite Hnone. reflexivity.
Qed.

Lemma fetchStockInstitutionalData_success (env : Env) (w : World)
  (stockId : jsstring) (init : list Inst.row) (last : Inst.row) :
  answers
    (net env (trace w) TaiwanStockInstitutionalInvestors (stock_flow stockId))
    (Some (init ++ [last])) ->
  fst (run env (fetchStockInstitutionalData stockId) w) =
  Fulfilled
    {| InstitutionalData.fields :=
         Some (institutional_of (Inst.date last)
                 (dailyData (Inst.date last) (init ++ [last])));
       InstitutionalData.status := js "success" |}.
Proof.
  intros [res [Hr Hb]].
  unfold fetchStockInstitutionalData. fold (stock_flow stockId).
  repeat run_step. rewrite Hr. cbn [bind await]. repeat run_step.
  rewrite Hb. cbn [get_data bind]. rewrite some_rows_nonempty.
  repeat run_step. rewrite item_last. cbn [defined run fst].
  unfold institutional_of.
  destruct (fold_left accumulate _ _) as [[foreign trust] dealer].
  reflexivity.
Qed.

(** ** The snapshot of one stock *)

Lemma fetchStockName_fulfils (env : Env) (w : World) (stockId : jsstring) :
  exists name, fst (run env (fetchStockName stockId) w) = Fulfilled name.
Proof. rewrite fetchStockName_lookup. eexists; reflexivity. Qed.

Lemma fetchStockData_failure (env : Env) (w : World) (stockId : jsstring) :
  failure false (net env (trace w) TaiwanStockPrice (stock_history stockId)) ->
  fst (run env (fetchStockData stockId) w) = Fulfilled (stock_error stockId).
Proof.
  intros H. unfold fetchStockData. fold (stock_history stockId).
  repeat run_step.
  destruct (fetchStockName_fulfils env
              (log (Requested TaiwanStockPrice (stock_history stockId)) w)
              stockId) as [name Hname].
  destruct (run env (fetchStockName stockId) _) as [rn w2].
  cbn [fst] in Hname. subst rn.
  inversion H as [e He|res Hf Hok He|res e Hb He|res Hb He]; clear H.
  - reflexivity.
  - discriminate Hf.
  - cbn. repeat run_step. rewrite Hb. reflexivity.
  - cbn. repeat run_step. rewrite Hb. reflexivity.
Qed.

Lemma fetchStockData_nodata (env : Env) (w : World) (stockId : jsstring)
  (data : option (list Price.row)) :
  answers (net env (trace w) TaiwanStockPrice (stock_history stockId)) data ->
  some_rows data = None ->
  fst (run env (fetchStockData stockId) w) = Fulfilled (stock_error stockId).
Proof.
  intros [res [Hr Hb]] Hnone. unfold fetchStockData.
  fold (stock_history stockId). repeat run_step.
  destruct (fetchStockName_fulfils env
              (log (Requested TaiwanStockPrice (stock_history stockId)) w)
              stockId) as [name Hname].
  destruct (run env (fetchStockName stockId) _) as [rn w2].
  cbn [fst] in Hname. subst rn.
  rewrite Hr. cbn. repeat run_step. rewrite Hb. cbn. rewrite Hnone.
  reflexivity.
Qed.

Lemma fetchStockData_per_failure (env : Env) (w : World) (stockId : jsstring)
  (init : list Price.row) (latest : Price.row) :
  answers (net env (trace w) TaiwanStockPrice (stock_history stockId))
    (Some (init ++ [latest])) ->
  (forall t, failure false (net env t TaiwanStockPER (stock_history stockId))) ->
  fst (run env (fetchStockData stockId) w) = Fulfilled (stock_error stockId).
Proof.
  intros [res [Hr Hb]] Hper. unfold fetchStockData.
  fold (stock_history stockId). repeat run_step.
  destruct (fetchStockName_fulfils env
              (log (Requested TaiwanStockPrice (stock_history stockId)) w)
              stockId) as [name Hname].
  destruct (run env (fetchStockName stockId) _) as [rn w2].
  cbn [fst] in Hname. subst rn.
  rewrite Hr. cbn [bind await]. repeat run_step. rewrite Hb.
  cbn [get_data bind]. rewrite some_rows_nonempty. repeat run_step.
  specialize (Hper (trace w2)).
  inversion Hper as [e He|pres Hf Hok He|pres e Hpb He|pres Hpb He]; clear Hper.
  - reflexivity.
  - discriminate Hf.
  - cbn. repeat run_step. rewrite Hpb. reflexivity.
  - cbn. repeat run_step. rewrite Hpb. reflexivity.
Qed.

Lemma fetchStockData_success (env : Env) (w : World) (stockId : jsstring)
  (init : list Price.row) (latest : Price.row) :
  answers (net env (trace w) TaiwanStockPrice (stock_history stockId))
    (Some (init ++ [latest])) ->
  (forall t, exists perData,
      answers (net env t TaiwanStockPER (stock_history stockId)) perData) ->
  let rows := init ++ [latest] in
  let prev := or_else (item rows (len rows - 2)) latest in
  exists name per pbr,
    fst (run env (fetchStockName stockId)
           (log (Requested TaiwanStockPrice (stock_history stockId)) w))
    = Fulfilled name /\
    fst (run env (fetchStockData stockId) w) =
    Fulfilled
      {| StockInfo.id := stockId;
         StockInfo.error := None;
         StockInfo.fields :=
           Some {| StockInfo.name := name;
                   StockInfo.price := Price.close latest;
                   StockInfo.change :=
                     parseFloat
                       (toFixed (Price.close latest - Price.close prev) 2);
                   StockInfo.pct :=
                     parseFloat
                       (toFixed ((Price.close latest - Price.close prev)
                                 / Price.close prev * 100) 2);
                   StockInfo.volume := Price.Trading_Volume latest;
                   StockInfo.per := per;
                   StockInfo.pbr := pbr;
                   StockInfo.history := rows;
                   StockInfo.lastUpdate := Price.date latest |};
         StockInfo.status := Some (js "success") |}.
Proof.
  intros [res [Hr Hb]] Hper rows prev. unfold fetchStockData.
  fold (stock_history stockId). repeat run_step.
  destruct (fetchStockName_fulfils env
              (log (Requested TaiwanStockPrice (stock_history stockId)) w)
              stockId) as [name Hname].
  destruct (run env (fetchStockName stockId) _) as [rn w2].
  cbn [fst] in Hname. subst rn.
  rewrite Hr. cbn [bind await]. repeat run_step. rewrite Hb.
  cbn [get_data bind]. rewrite some_rows_nonempty. repeat run_step.
  destruct (Hper (trace w2)) as [perData [pres [Hpr Hpb]]].
  rewrite Hpr. cbn [bind await]. repeat run_step. rewrite Hpb.
  cbn [get_data bind]. repeat run_step. rewrite item_last.
  cbn [defined run fst]. exists name. do 2 eexists.
  split; reflexivity.
Qed.

(* ================================================================== *)
(** ** Change and percent *)

(** A finite number minus itself is +0. *)
Lemma sub_self_finite (x : float) : finite x = true -> x - x = 0.
Proof.
  unfold finite. intros H. apply Prim2SF_inj. rewrite sub_spec.
  unfold SF64sub, SFsub.
  destruct (Prim2SF x) as [s|s| |s m e]; try discriminate.
  - destruct s; reflexivity.
  - rewrite Z.sub_diag. reflexivity.
Qed.



(* ================================================================== *)
(** ** Institutional flow *)

Lemma totalNet_fold (daily : list Inst.row) :
  totalNet daily = fold_left add_net daily 0.
Proof. reflexivity. Qed.

Lemma accumulate_cases (foreign trust dealer : float) (item : Inst.row) :
  accumulate (foreign, trust, dealer) item =
  if of_class "Foreign_Investor" item
  then (add_net foreign item, trust, dealer)
  else if of_class "Investment_Trust" item
  then (foreign, add_net trust item, dealer)
  else if of_class "Dealer" item
  then (foreign, trust, add_net dealer item)
  else (foreign, trust, dealer).
Proof. reflexivity. Qed.

(** A row has one class. *)
Lemma of_class_other (c1 c2 : string) (item : Inst.row) :
  of_class c1 item = true -> str_eqb (js c1) (js c2) = false ->
  of_class c2 item = false.
Proof.
  unfold of_class. intros H1 Hne. apply str_eqb_eq in H1. rewrite H1.
  exact Hne.
Qed.

(** The loop with three accumulators is three sums, each over the rows of
    its class. *)
Lemma accumulate_by_class (daily : list Inst.row) (foreign trust dealer : float) :
  fold_left accumulate daily (foreign, trust, dealer) =
  (fold_left add_net (filter (of_class "Foreign_Investor") daily) foreign,
   fold_left add_net (filter (of_class "Investment_Trust") daily) trust,
   fold_left add_net (filter (of_class "Dealer") daily) dealer).
Proof.
  revert foreign trust dealer.
  induction daily as [|item daily IH]; intros foreign trust dealer;
    [reflexivity|].
  cbn [fold_left filter]. rewrite accumulate_cases.
  destruct (of_class "Foreign_Investor" item) eqn:EF.
  - rewrite (@of_class_other "Foreign_Investor" "Investment_Trust" item EF eq_refl).
    rewrite (@of_class_other "Foreign_Investor" "Dealer" item EF eq_refl).
    rewrite IH. reflexivity.
  - destruct (of_class "Investment_Trust" item) eqn:ET.
    + rewrite (@of_class_other "Investment_Trust" "Dealer" item ET eq_refl).
      rewrite IH. reflexivity.
    + destruct (of_class "Dealer" item) eqn:ED; rewrite IH; reflexivity.
Qed.

(** A row of another class leaves the three accumulators as they are. *)
Lemma accumulate_other (acc : float * float * float) (item : Inst.row) :
  three_classes item = false -> accumulate acc item = acc.
Proof.
  unfold three_classes, of_class. rewrite !orb_false_iff.
  intros [[HF HT] HD]. destruct acc as [[foreign trust] dealer].
  unfold accumulate. rewrite HF, HT, HD. reflexivity.
Qed.

Lemma accumulate_three_classes (daily : list Inst.row)
  (acc : float * float * float) :
  fold_left accumulate (filter three_classes daily) acc =
  fold_left accumulate daily acc.
Proof.
  revert acc. induction daily as [|item daily IH]; intros acc; [reflexivity|].
  cbn [filter fold_left].
  destruct (three_classes item) eqn:E.
  - cbn [fold_left]. apply IH.
  - rewrite (accumulate_other acc item E). apply IH.
Qed.

Lemma str_leb_refl (a : jsstring) : str_leb a a = true.
Proof.
  induction a as [|x a IH]; [reflexivity|]. cbn.
  rewrite N.ltb_irrefl, N.eqb_refl. exact IH.
Qed.

(** In a series in date order no row is later than the last one. *)
Lemma sorted_last_latest (init : list Inst.row) (last : Inst.row) :
  StronglySorted not_after (init ++ [last]) ->
  forall r, In r (init ++ [last]) -> not_after r last.
Proof.
  intros Hs r Hr. apply in_app_or in Hr. destruct Hr as [Hr|[<-|[]]].
  - induction init as [|x init IH]; [destruct Hr|].
    cbn in Hs. apply StronglySorted_inv in Hs. destruct Hs as [Hs Hx].
    destruct Hr as [<-|Hr]; [|exact (IH Hs Hr)].
    rewrite Forall_forall in Hx. apply Hx. apply in_or_app.
    right; left; reflexivity.
  - apply str_leb_refl.
Qed.

(** C3.  On a series that is not empty, [fetchStockInstitutionalData]
    returns the date of the last row, which in a series in date order is the
    most recent one; [foreign], [trust] and [dealer] are the sums of
    [buy - sell] over the rows of that date named Foreign_Investor,
    Investment_Trust and Dealer; and [total] is [foreign + trust + dealer]. *)
Theorem institutional_total (env : Env) (w : World) (stockId : jsstring)
  (init : list Inst.row) (last : Inst.row) :
  answers
    (net env (trace w) TaiwanStockInstitutionalInvestors (stock_flow stockId))
    (Some (init ++ [last])) ->
  let daily :=
    filter (fun r => str_eqb (Inst.date r) (Inst.date last)) (init ++ [last]) in
  exists d,
    fst (run env (fetchStockInstitutionalData stockId) w) =
    Fulfilled {| InstitutionalData.fields := Some d;
                 InstitutionalData.status := js "success" |} /\
    InstitutionalData.date d = Inst.date last /\
    (StronglySorted not_after (init ++ [last]) ->
     forall r, In r (init ++ [last]) ->
               str_leb (Inst.date r) (InstitutionalData.date d) = true) /\
    InstitutionalData.foreign d =
    totalNet (filter (of_class "Foreign_Investor") daily) /\
    InstitutionalData.trust d =
    totalNet (filter (of_class "Investment_Trust") daily) /\
    InstitutionalData.dealer d =
    totalNet (filter (of_class "Dealer") daily) /\
    InstitutionalData.total d =
    InstitutionalData.foreign d + InstitutionalData.trust d
    + InstitutionalData.dealer d.
Proof.
  intros H daily.
  rewrite (fetchStockInstitutionalData_success env w stockId init last H).
  eexists. split; [reflexivity|].
  unfold institutional_of. fold daily.
  change (dailyData (Inst.date last) (init ++ [last])) with daily.
  rewrite accumulate_by_class. cbn.
  split; [reflexivity|]. split; [|repeat split; reflexivity].
  intros Hs r Hr. exact (sorted_last_latest init last Hs r Hr).
Qed.

Lemma institutional_total_witness :
  exists d,
    fst (run flows_served (fetchStockInstitutionalData (js "2330")) initial) =
    Fulfilled {| InstitutionalData.fields := Some d;
                 InstitutionalData.status := js "success" |} /\
    InstitutionalData.date d = js "2024-01-03" /\
    InstitutionalData.foreign d = 6e10 /\
    InstitutionalData.trust d = -0.5e10 /\
    InstitutionalData.dealer d = 0.5e10 /\
    InstitutionalData.total d = 6e10.
Proof.
  destruct (institutional_total flows_served initial (js "2330")
              (removelast sample_flows)
              (flow "2024-01-03" "Dealer" 1e10 0.5e10))
    as [d [E [Hd [_ [Hf [Ht [Hdl Htot]]]]]]].
  { eexists. split; reflexivity. }
  exists d. split; [exact E|]. split; [exact Hd|].
  rewrite Htot, Hf, Ht, Hdl. repeat split; reflexivity.
Defined.

(** C10.  [fetchStockInstitutionalData] returns what it would return with
    the rows of other classes taken out of the last date, since such a row
    leaves its accumulators as they are; [fetchInstitutionalInvestors]
    adds [buy - sell] of every row of the last date, whatever its class.
    On the sample flows the first total is 6e10 and the second sum 9e10. *)
Theorem aggregations_differ :
  (forall env w stockId init last,
      answers
        (net env (trace w) TaiwanStockInstitutionalInvestors
           (stock_flow stockId))
        (Some (init ++ [last])) ->
      fst (run env (fetchStockInstitutionalData stockId) w) =
      Fulfilled
        {| InstitutionalData.fields :=
             Some (institutional_of (Inst.date last)
                     (filter three_classes
                        (dailyData (Inst.date last) (init ++ [last]))));
           InstitutionalData.status := js "success" |}) /\
  (forall acc item, three_classes item = false -> accumulate acc item = acc) /\
  (forall env w init last,
      answers_ok
        (net env (trace w) TaiwanStockTotalInstitutionalInvestors market_flow)
        (Some (init ++ [last])) ->
      exists d,
        fst (run env fetchInstitutionalInvestors w) =
        Fulfilled {| FundFlow.fields := Some d;
                     FundFlow.apiStatus := js "success" |} /\
        FundFlow.total d =
        parseFloat
          (toFixed
             (fold_left add_net (dailyData (Inst.date last) (init ++ [last])) 0
              / 100000000) 2)) /\
  (forall acc item daily,
      fold_left add_net (item :: daily) acc =
      fold_left add_net daily (acc + (Inst.buy item - Inst.sell item))) /\
  (let daily := dailyData (js "2024-01-03") sample_flows in
   InstitutionalData.total (institutional_of (js "2024-01-03") daily) = 6e10 /\
   totalNet daily = 9e10).
Proof.
  split; [|split; [|split; [|split]]].
  - intros env w stockId init last H.
    rewrite (fetchStockInstitutionalData_success env w stockId init last H).
    unfold institutional_of. rewrite accumulate_three_classes. reflexivity.
  - intros acc item H. apply accumulate_other; exact H.
  - intros env w init last H.
    rewrite (fetchInstitutionalInvestors_success env w init last H).
    eexists. split; reflexivity.
  - reflexivity.
  - split; reflexivity.
Qed.

Lemma aggregations_differ_witness :
  fst (run flows_served (fetchStockInstitutionalData (js "2330")) initial) =
  Fulfilled
    {| InstitutionalData.fields :=
         Some {| InstitutionalData.date := js "2024-01-03";
                 InstitutionalData.foreign := 6e10;
                 InstitutionalData.trust := -0.5e10;
                 InstitutionalData.dealer := 0.5e10;
                 InstitutionalData.total := 6e10 |};
       InstitutionalData.status := js "success" |} /\
  exists d,
    fst (run flows_served fetchInstitutionalInvestors initial) =
    Fulfilled {| FundFlow.fields := Some d;
                 FundFlow.apiStatus := js "success" |} /\
    FundFlow.total d = 900.
Proof.
  destruct aggregations_differ as [Hstock [_ [Hmarket _]]].
  split.
  - rewrite (Hstock flows_served initial (js "2330") (removelast sample_flows)
               (flow "2024-01-03" "Dealer" 1e10 0.5e10)).
    + reflexivity.
    + eexists. split; reflexivity.
  - destruct (Hmarket flows_served initial (removelast sample_flows)
                (flow "2024-01-03" "Dealer" 1e10 0.5e10)) as [d [E Ht]].
    + eexists. split; [reflexivity | split; reflexivity].
    + exists d. split; [exact E|]. rewrite Ht. reflexivity.
Defined.

(* ================================================================== *)
(** ** No data, and failures *)

(** C4, as amended.  When the answer has no [data] or an empty one (the
    status being ok where the operation tests it), [fetchMarketIndex] and
    [fetchStockInstitutionalData] return [{ status: 'nodata' }],
    [fetchInstitutionalInvestors] returns [{ apiStatus: 'nodata' }], and
    [fetchStockData] returns its error flag [{ error: true, id }]; each
    returns, none throws. *)
Theorem empty_data_results (env : Env) (w : World) (stockId : jsstring) :
  (forall data,
      answers_ok (net env (trace w) TaiwanStockPrice taiex) data ->
      data = None \/ data = Some [] ->
      fst (run env fetchMarketIndex w) =
      Fulfilled {| MarketIndex.fields := None;
                   MarketIndex.status := js "nodata" |}) /\
  (forall data,
      answers_ok
        (net env (trace w) TaiwanStockTotalInstitutionalInvestors market_flow)
        data ->
      data = None \/ data = Some [] ->
      fst (run env fetchInstitutionalInvestors w) =
      Fulfilled {| FundFlow.fields := None;
                   FundFlow.apiStatus := js "nodata" |}) /\
  (forall data,
      answers
        (net env (trace w) TaiwanStockInstitutionalInvestors
           (stock_flow stockId))
        data ->
      data = None \/ data = Some [] ->
      fst (run env (fetchStockInstitutionalData stockId) w) =
      Fulfilled {| InstitutionalData.fields := None;
                   InstitutionalData.status := js "nodata" |}) /\
  (forall data,
      answers (net env (trace w) TaiwanStockPrice (stock_history stockId))
        data ->
      data = None \/ data = Some [] ->
      fst (run env (fetchStockData stockId) w) =
      Fulfilled {| StockInfo.id := stockId; StockInfo.error := Some true;
                   StockInfo.fields := None; StockInfo.status := None |}).
Proof.
  repeat split; intros data H Hempty; apply some_rows_none in Hempty.
  - exact (fetchMarketIndex_nodata env w H Hempty).
  - exact (fetchInstitutionalInvestors_nodata env w H Hempty).
  - exact (fetchStockInstitutionalData_nodata env w stockId H Hempty).
  - exact (fetchStockData_nodata env w stockId H Hempty).
Qed.

Lemma empty_data_results_witness :
  fst (run empty_answers fetchMarketIndex initial) =
  Fulfilled {| MarketIndex.fields := None;
               MarketIndex.status := js "nodata" |} /\
  fst (run empty_answers (fetchStockData (js "2330")) initial) =
  Fulfilled {| StockInfo.id := js "2330"; StockInfo.error := Some true;
               StockInfo.fields := None; StockInfo.status := None |}.
Proof.
  destruct (empty_data_results empty_answers initial (js "2330"))
    as [Hm [_ [_ Hs]]].
  split.
  - apply (Hm (Some [])); [|right; reflexivity].
    eexists. split; [reflexivity | split; reflexivity].
  - apply (Hs (Some [])); [|right; reflexivity].
    eexists. split; reflexivity.
Defined.

(** C4 as stated fails for [fetchStockData]: on an empty [data] its result
    has no status at all, so not a "no data" one, and is the very value it
    returns when the network is down. *)
Lemma empty_data_results_counterexample :
  exists r,
    fst (run empty_answers (fetchStockData (js "2330")) initial) = Fulfilled r /\
    StockInfo.status r = None /\
    StockInfo.status r <> Some (js "nodata") /\
    StockInfo.error r = Some true /\
    fst (run offline (fetchStockData (js "2330")) initial) = Fulfilled r.
Proof.
  eexists. split; [reflexivity|].
  repeat split; try reflexivity. discriminate.
Qed.

(** The handler of each operation returns, so the operation does. *)
Lemma fetchMarketIndex_fulfils (env : Env) (w : World) :
  exists v, fst (run env fetchMarketIndex w) = Fulfilled v.
Proof.
  unfold fetchMarketIndex. apply try_catch_fulfils.
  intros e w'. eexists. reflexivity.
Qed.

Lemma fetchInstitutionalInvestors_fulfils (env : Env) (w : World) :
  exists v, fst (run env fetchInstitutionalInvestors w) = Fulfilled v.
Proof.
  unfold fetchInstitutionalInvestors. apply try_catch_fulfils.
  intros e w'. eexists. reflexivity.
Qed.

Lemma fetchStockInstitutionalData_fulfils (env : Env) (w : World)
  (stockId : jsstring) :
  exists v, fst (run env (fetchStockInstitutionalData stockId) w) = Fulfilled v.
Proof.
  unfold fetchStockInstitutionalData. apply try_catch_fulfils.
  intros e w'. eexists. reflexivity.
Qed.

Lemma fetchStockData_fulfils (env : Env) (w : World) (stockId : jsstring) :
  exists v, fst (run env (fetchStockData stockId) w) = Fulfilled v.
Proof.
  unfold fetchStockData. apply try_catch_fulfils.
  intros e w'. eexists. reflexivity.
Qed.

(** C5.  Each of the four operations returns in every environment: nothing
    is thrown out of it.  When its request fails, by any of the ways of
    [failure], it returns one value that does not tell which:
    [{ status: 'error' }], [{ apiStatus: 'error' }] or
    [{ error: true, id }]; [fetchStockData] returns the same when its second
    request, for the ratios, fails. *)
Theorem failures_collapse (env : Env) (w : World) (stockId : jsstring) :
  ((exists v, fst (run env fetchMarketIndex w) = Fulfilled v) /\
   (exists v, fst (run env fetchInstitutionalInvestors w) = Fulfilled v) /\
   (exists v,
       fst (run env (fetchStockInstitutionalData stockId) w) = Fulfilled v) /\
   (exists v, fst (run env (fetchStockData stockId) w) = Fulfilled v)) /\
  (failure true (net env (trace w) TaiwanStockPrice taiex) ->
   fst (run env fetchMarketIndex w) =
   Fulfilled {| MarketIndex.fields := None;
                MarketIndex.status := js "error" |}) /\
  (failure true
     (net env (trace w) TaiwanStockTotalInstitutionalInvestors market_flow) ->
   fst (run env fetchInstitutionalInvestors w) =
   Fulfilled {| FundFlow.fields := None; FundFlow.apiStatus := js "error" |}) /\
  (failure false
     (net env (trace w) TaiwanStockInstitutionalInvestors
        (stock_flow stockId)) ->
   fst (run env (fetchStockInstitutionalData stockId) w) =
   Fulfilled {| InstitutionalData.fields := None;
                InstitutionalData.status := js "error" |}) /\
  (failure false
     (net env (trace w) TaiwanStockPrice (stock_history stockId)) ->
   fst (run env (fetchStockData stockId) w) =
   Fulfilled {| StockInfo.id := stockId; StockInfo.error := Some true;
                StockInfo.fields := None; StockInfo.status := None |}) /\
  (forall init latest,
      answers (net env (trace w) TaiwanStockPrice (stock_history stockId))
        (Some (init ++ [latest])) ->
      (forall t,
          failure false (net env t TaiwanStockPER (stock_history stockId))) ->
      fst (run env (fetchStockData stockId) w) =
      Fulfilled {| StockInfo.id := stockId; StockInfo.error := Some true;
                   StockInfo.fields := None; StockInfo.status := None |}).
Proof.
  split; [|split; [|split; [|split; [|split]]]].
  - split; [apply fetchMarketIndex_fulfils|].
    split; [apply fetchInstitutionalInvestors_fulfils|].
    split; [apply fetchStockInstitutionalData_fulfils
           | apply fetchStockData_fulfils].
  - apply fetchMarketIndex_failure.
  - apply fetchInstitutionalInvestors_failure.
  - apply fetchStockInstitutionalData_failure.
  - apply fetchStockData_failure.
  - intros init latest. apply fetchStockData_per_failure.
Qed.

Lemma failures_collapse_witness :
  let error := {| MarketIndex.fields := None;
                  MarketIndex.status := js "error" |} in
  fst (run offline fetchMarketIndex initial) = Fulfilled error /\
  fst (run status_500 fetchMarketIndex initial) = Fulfilled error /\
  fst (run not_json fetchMarketIndex initial) = Fulfilled error /\
  fst (run null_body fetchMarketIndex initial) = Fulfilled error /\
  fst (run not_json (fetchStockData (js "2330")) initial) =
  fst (run offline (fetchStockData (js "2330")) initial) /\
  fst (run no_ratios (fetchStockData (js "2330")) initial) =
  fst (run offline (fetchStockData (js "2330")) initial).
Proof.
  cbv zeta.
  destruct (failures_collapse no_ratios initial (js "2330"))
    as [_ [_ [_ [_ [_ P]]]]].
  destruct (failures_collapse offline initial (js "2330")) as [_ [H1 [_ [_ [S1 _]]]]].
  destruct (failures_collapse status_500 initial (js "2330")) as [_ [H2 _]].
  destruct (failures_collapse not_json initial (js "2330"))
    as [_ [H3 [_ [_ [S3 _]]]]].
  destruct (failures_collapse null_body initial (js "2330")) as [_ [H4 _]].
  split; [apply H1; apply network_failure|].
  split; [apply H2; apply status_failure; reflexivity|].
  split; [apply H3; eapply parse_failure; reflexivity|].
  split; [apply H4; apply null_failure; reflexivity|].
  rewrite S1 by apply network_failure.
  rewrite S3 by (eapply parse_failure; reflexivity).
  split; [reflexivity|].
  apply (P [bar "2024-01-02" 100] (bar "2024-01-03" 105)).
  - eexists. split; reflexivity.
  - intros t. apply network_failure.
Defined.

(* ================================================================== *)
(** ** The generative-AI call *)

(** C6.  When the request of [getGeminiAnalysis] is rejected, or the text
    of its response does not parse, the call logs the error and throws it
    again: the caller gets the rejection, with the same error; when the text
    parses, the caller gets the parsed value. *)
Theorem getGeminiAnalysis_rethrows (Any : Type)
  (JSON_parse : jsstring -> Settled Any) (env : Env) (w : World)
  (stockData : StockInfo.result) (instData : InstitutionalData.result)
  (stock : StockInfo.data) :
  StockInfo.fields stockData = Some stock ->
  let call := run env (getGeminiAnalysis JSON_parse stockData instData) w in
  (forall e,
      (forall p, ai env (trace w) p = Rejected e) ->
      fst call = Rejected e /\
      In (Logged (js "Gemini Analysis Failed:") e) (trace (snd call))) /\
  (forall response e,
      (forall p, ai env (trace w) p = Fulfilled response) ->
      JSON_parse (text_or_braces (text response)) = Rejected e ->
      fst call = Rejected e /\
      In (Logged (js "Gemini Analysis Failed:") e) (trace (snd call))) /\
  (forall response v,
      (forall p, ai env (trace w) p = Fulfilled response) ->
      JSON_parse (text_or_braces (text response)) = Fulfilled v ->
      fst call = Fulfilled v).
Proof.
  intros Hstock call. subst call. unfold getGeminiAnalysis.
  rewrite Hstock. cbn [defined bind]. rewrite run_try_catch, run_bind.
  unfold generateContent. cbn [run].
  split; [|split].
  - intros e Hai. rewrite Hai. cbn. split; [reflexivity | left; reflexivity].
  - intros response e Hai Hparse. rewrite Hai. cbn [await run].
    rewrite run_await, Hparse. cbn. split; [reflexivity | left; reflexivity].
  - intros response v Hai Hparse. rewrite Hai. cbn [await run].
    rewrite run_await, Hparse. reflexivity.
Qed.

Lemma getGeminiAnalysis_rethrows_witness :
  fst (run offline (getGeminiAnalysis parse_braces sample_stock sample_inst)
         initial)
  = Rejected (TypeError (js "Failed to fetch")) /\
  fst (run chatty (getGeminiAnalysis parse_braces sample_stock sample_inst)
         initial)
  = Rejected {| error_name := js "SyntaxError";
                message := js "Unexpected token" |}.
Proof.
  split.
  - destruct (getGeminiAnalysis_rethrows parse_braces offline initial
                sample_stock sample_inst eq_refl) as [H _].
    apply (H (TypeError (js "Failed to fetch"))). intros p; reflexivity.
  - destruct (getGeminiAnalysis_rethrows parse_braces chatty initial
                sample_stock sample_inst eq_refl) as [_ [H _]].
    apply (H {| text := Some (js "Sorry, no.") |}
             {| error_name := js "SyntaxError";
                message := js "Unexpected token" |}).
    + intros p; reflexivity.
    + reflexivity.
Defined.

(* ================================================================== *)
(** ** The cache *)

Lemma respects_Ret {R : Type} (r : R) : respects_cache (Ret r).
Proof.
  intros env w. cbn. destruct (stockListCache w); [auto | lia].
Qed.

Lemma respects_Throw {R : Type} (e : JsError) : respects_cache (@Throw R e).
Proof.
  intros env w. cbn. destruct (stockListCache w); [auto | lia].
Qed.

Lemma respects_bind {A B : Type} (m : Async A) (f : A -> Async B) :
  respects_cache m -> (forall a, respects_cache (f a)) ->
  respects_cache (bind m f).
Proof.
  intros Hm Hf env w. cbv zeta. rewrite run_bind.
  specialize (Hm env w). cbv zeta in Hm.
  destruct (run env m w) as [[a|e] w1]; cbn [snd] in *; [|exact Hm].
  specialize (Hf a env w1). cbv zeta in Hf.
  destruct (stockListCache w) as [l|].
  - destruct Hm as [Hc [Hs Hr]]. rewrite Hc in Hf.
    destruct Hf as [Hc' [Hs' Hr']]. repeat split; congruence.
  - destruct (stockListCache w1) as [l1|].
    + destruct Hf as [Hc' [Hs' Hr']]. rewrite Hc'. lia.
    + lia.
Qed.

Lemma respects_try_catch {A : Type} (m : Async A) (h : JsError -> Async A) :
  respects_cache m -> (forall e, respects_cache (h e)) ->
  respects_cache (try_catch m h).
Proof.
  intros Hm Hh env w. cbv zeta. rewrite run_try_catch.
  specialize (Hm env w). cbv zeta in Hm.
  destruct (run env m w) as [[a|e] w1]; cbn [snd] in *; [exact Hm|].
  specialize (Hh e env w1). cbv zeta in Hh.
  destruct (stockListCache w) as [l|].
  - destruct Hm as [Hc [Hs Hr]]. rewrite Hc in Hh.
    destruct Hh as [Hc' [Hs' Hr']]. repeat split; congruence.
  - destruct (stockListCache w1) as [l1|].
    + destruct Hh as [Hc' [Hs' Hr']]. rewrite Hc'. lia.
    + lia.
Qed.

Lemma respects_await {A : Type} (p : Settled A) : respects_cache (await p).
Proof. destruct p; [apply respects_Ret | apply respects_Throw]. Qed.

(** A request for another dataset than the stock list. *)
Lemma respects_fetch (d : Dataset) (q : Query) :
  d <> TaiwanStockInfo -> respects_cache (fetch d q).
Proof.
  intros Hd env w. cbv zeta. rewrite run_fetch. cbn.
  destruct (stockListCache w).
  - repeat split. destruct d; congruence.
  - lia.
Qed.

Lemma respects_res_json (d : Dataset) (res : Response d) :
  respects_cache (res_json res).
Proof.
  intros env w. cbv zeta. rewrite run_res_json. cbn.
  destruct (stockListCache w); [auto | lia].
Qed.

Lemma respects_get_data (d : Dataset) (json : Json d) :
  respects_cache (get_data json).
Proof. destruct json; [apply respects_Throw | apply respects_Ret]. Qed.

Lemma respects_defined {A : Type} (x : option A) : respects_cache (defined x).
Proof. destruct x; [apply respects_Ret | apply respects_Throw]. Qed.

Lemma respects_console_error (label : jsstring) (e : JsError) :
  respects_cache (console_error label e).
Proof.
  intros env w. cbn. destruct (stockListCache w); [auto | lia].
Qed.

Lemma respects_getStockList : respects_cache getStockList.
Proof.
  intros env w. cbv zeta. rewrite getStockList_run.
  destruct (stockListCache w) as [l|] eqn:Hc; cbn.
  - rewrite Hc. auto.
  - destruct (net env (trace w) TaiwanStockInfo noQuery) as [res|e]; cbn;
      [|rewrite Hc; lia].
    destruct (body res) as [[|[l|]]|e]; cbn; try rewrite Hc; lia.
Qed.

Lemma respects_attempt {A : Type} (m : Async A) :
  respects_cache m -> respects_cache (attempt m).
Proof.
  intros Hm env w. cbv zeta. rewrite run_attempt. exact (Hm env w).
Qed.

Lemma respects_Promise_all {A B : Type} (a : Async A) (b : Async B) :
  respects_cache a -> respects_cache b -> respects_cache (Promise_all a b).
Proof.
  intros Ha Hb. unfold Promise_all.
  apply respects_bind; [apply respects_attempt; exact Ha|]. intros ra.
  apply respects_bind; [apply respects_attempt; exact Hb|]. intros rb.
  destruct ra, rb; first [apply respects_Ret | apply respects_Throw].
Qed.

Create HintDb cache.
#[local] Hint Resolve respects_Ret respects_Throw respects_await
  respects_res_json respects_get_data respects_defined
  respects_console_error respects_getStockList : cache.

Ltac respects :=
  repeat first
    [ progress auto with cache
    | apply respects_fetch; discriminate
    | apply respects_try_catch
    | apply respects_bind
    | apply respects_Promise_all
    | match goal with |- forall _, _ => intro end
    | progress cbv zeta
    | match goal with
      | |- respects_cache (if ?x then _ else _) => destruct x
      | |- respects_cache (match ?x with _ => _ end) => destruct x
      end ].

Lemma respects_resolveStockId (query : jsstring) :
  respects_cache (resolveStockId query).
Proof. unfold resolveStockId. respects. Qed.

Lemma respects_fetchStockName (stockId : jsstring) :
  respects_cache (fetchStockName stockId).
Proof. unfold fetchStockName. respects. Qed.

Lemma respects_fetchMarketIndex : respects_cache fetchMarketIndex.
Proof. unfold fetchMarketIndex. respects. Qed.

Lemma respects_fetchInstitutionalInvestors :
  respects_cache fetchInstitutionalInvestors.
Proof. unfold fetchInstitutionalInvestors. respects. Qed.

Lemma respects_fetchStockInstitutionalData (stockId : jsstring) :
  respects_cache (fetchStockInstitutionalData stockId).
Proof. unfold fetchStockInstitutionalData. respects. Qed.

Lemma respects_fetchStockData (stockId : jsstring) :
  respects_cache (fetchStockData stockId).
Proof.
  unfold fetchStockData. pose proof (respects_fetchStockName stockId).
  respects.
Qed.

Lemma respects_operation (env : Env) (w : World) (op : Operation) :
  let w' := perform env w op in
  match stockListCache w with
  | Some l =>
      stockListCache w' = Some l /\
      stores (trace w') = stores (trace w) /\
      list_requests (trace w') = list_requests (trace w)
  | None =>
      stores (trace w') =
      (stores (trace w)
       + match stockListCache w' with Some _ => 1 | None => 0 end)%nat
  end.
Proof.
  destruct op; cbn [perform].
  - apply respects_getStockList.
  - apply respects_resolveStockId.
  - apply respects_fetchStockName.
  - apply respects_fetchMarketIndex.
  - apply respects_fetchInstitutionalInvestors.
  - apply respects_fetchStockInstitutionalData.
  - apply respects_fetchStockData.
Qed.

Lemma perform_all_cached (env : Env) (ops : list Operation) (w : World)
  (l : list Info.row) :
  stockListCache w = Some l ->
  stockListCache (perform_all env ops w) = Some l /\
  stores (trace (perform_all env ops w)) = stores (trace w) /\
  list_requests (trace (perform_all env ops w)) = list_requests (trace w).
Proof.
  revert w. induction ops as [|op ops IH]; intros w Hc; [auto|].
  cbn [perform_all fold_left].
  pose proof (respects_operation env w op) as H. cbv zeta in H.
  rewrite Hc in H. destruct H as [Hc' [Hs Hr]].
  destruct (IH (perform env w op) Hc') as [Hc2 [Hs2 Hr2]].
  unfold perform_all in *. repeat split; congruence.
Qed.

Lemma perform_all_once (env : Env) (ops : list Operation) (w : World) :
  populated_once w -> populated_once (perform_all env ops w).
Proof.
  revert w. induction ops as [|op ops IH]; intros w Hw; [exact Hw|].
  cbn [perform_all fold_left]. apply IH. unfold populated_once in *.
  pose proof (respects_operation env w op) as H. cbv zeta in H.
  destruct (stockListCache w) as [l|].
  - destruct H as [Hc [Hs _]]. rewrite Hc, Hs. exact Hw.
  - rewrite H, Hw. reflexivity.
Qed.

(** Nothing assigns [null]: a list once cached stays a list. *)
Lemma advance_keeps_cache {R : Type} (m : Async R) (w : World) :
  stockListCache w <> None -> stockListCache (snd (advance m w)) <> None.
Proof.
  revert w. induction m; intros w Hw; cbn; auto.
  apply IHm. cbn. discriminate.
Qed.

Lemma step_keeps_cache (s s' : System) :
  step s s' ->
  stockListCache (world s) <> None -> stockListCache (world s') <> None.
Proof.
  intros H. destruct H; cbn [world]; apply advance_keeps_cache.
Qed.

Lemma steps_keep_cache (s s' : System) :
  steps s s' ->
  stockListCache (world s) <> None -> stockListCache (world s') <> None.
Proof.
  induction 1 as [s|s1 s2 s3 H12 _ IH]; [auto|].
  intros H1. apply IH. exact (step_keeps_cache H12 H1).
Qed.

(** A call that ends before its first [await] ends the same when run. *)
Lemma advance_Ret_run {R : Type} (m : Async R) (w w' : World) (v : R) :
  advance m w = (Ret v, w') -> forall env, run env m w = (Fulfilled v, w').
Proof.
  revert w. induction m; intros w E env; cbn in E |- *;
    try discriminate; eauto.
  injection E as -> ->. reflexivity.
Qed.

Lemma getStockList_cached (w : World) (l : list Info.row) :
  stockListCache w = Some l -> advance getStockList w = (Ret l, w).
Proof. intros H. unfold getStockList. cbn [advance]. rewrite H. reflexivity. Qed.

Lemma resolveStockId_cached (w : World) (l : list Info.row) (query : jsstring) :
  stockListCache w = Some l ->
  exists r, advance (resolveStockId query) w = (Ret r, w).
Proof.
  intros H. unfold resolveStockId.
  destruct (falsy (trim query)); [eexists; reflexivity|].
  destruct (test_digits (trim query)); [eexists; reflexivity|].
  unfold getStockList. cbn [bind advance]. rewrite H. cbn [bind].
  destruct (find (exact_match (trim query)) l); [eexists; reflexivity|].
  destruct (find (fuzzy_match (trim query)) l); eexists; reflexivity.
Qed.

Lemma fetchStockName_cached (w : World) (l : list Info.row) (stockId : jsstring) :
  stockListCache w = Some l ->
  exists n, advance (fetchStockName stockId) w = (Ret n, w).
Proof.
  intros H. unfold fetchStockName, getStockList. cbn [bind advance].
  rewrite H. cbn [bind].
  destruct (find _ l); eexists; reflexivity.
Qed.




(** ** The two ways of running agree *)

Lemma steps_trans (s1 s2 s3 : System) :
  steps s1 s2 -> steps s2 s3 -> steps s1 s3.
Proof.
  induction 1 as [s|a b c Hab _ IH]; [auto|].
  intros H. eapply steps_step; [exact Hab | exact (IH H)].
Qed.

Lemma advance_then_run {R : Type} (env : Env) (m : Async R) (w : World)
  (p : list Task) :
  steps {| world := snd (advance m w); pool := p ++ [task (fst (advance m w))] |}
        {| world := snd (run env m w);
           pool := p ++ [task (settled (fst (run env m w)))] |}.
Proof.
  revert w.
  induction m as [r|e|d q k IH|d res k IH|k IH|l k IH|label e k IH|pr k IH];
    intros w; cbn [advance run fst snd settled]; try apply steps_refl; auto.
  - eapply steps_step; [|apply IH].
    apply step_response with (p2 := []).
  - eapply steps_step; [|apply IH].
    apply step_json with (p2 := []).
  - eapply steps_step; [|apply IH].
    apply step_generated with (p2 := []).
Qed.

(** A call run alone by [run] is one of the ways [step] can go: the call
    is made, and each of its awaits is answered before anything else
    happens. *)
Lemma run_is_an_interleaving {R : Type} (env : Env) (m : Async R) (w : World)
  (p : list Task) :
  steps {| world := w; pool := p |}
        {| world := snd (run env m w);
           pool := p ++ [task (settled (fst (run env m w)))] |}.
Proof.
  eapply steps_step; [apply step_call | apply advance_then_run].
Qed.

(** ** More on the stock list *)

(** An empty list is cached like any other: when the provider answers the
    first request with an empty [data], [stockListCache] holds [[]] from
    then on, and every later call returns [[]] without a request. *)
Theorem empty_list_is_cached (env : Env) (w : World) :
  stockListCache w = None ->
  answers (net env (trace w) TaiwanStockInfo noQuery) (Some []) ->
  let w' := snd (run env getStockList w) in
  stockListCache w' = Some [] /\
  forall env', run env' getStockList w' = (Fulfilled [], w').
Proof.
  intros Hc [res [Hr Hb]]. cbv zeta.
  assert (Hw : run env getStockList w =
               (Fulfilled [],
                store [] (log (Requested TaiwanStockInfo noQuery) w))).
  { rewrite getStockList_run, Hc. cbn. rewrite Hr, Hb. reflexivity. }
  rewrite Hw. cbn [snd]. split; [reflexivity|].
  intros env'. rewrite getStockList_run. reflexivity.
Qed.

Lemma empty_list_is_cached_witness :
  stockListCache (snd (run empty_answers getStockList initial)) = Some [].
Proof.
  apply (empty_list_is_cached empty_answers initial).
  - reflexivity.
  - eexists. split; reflexivity.
Defined.

(** A list that could not be fetched is not cached: the call returns [[]],
    the cache stays empty, and the next call sends the request again. *)
Theorem failed_list_is_requested_again (env : Env) (w : World) :
  stockListCache w = None ->
  fetched_list (net env (trace w) TaiwanStockInfo noQuery) = None ->
  let w' := snd (run env getStockList w) in
  fst (run env getStockList w) = Fulfilled [] /\
  stockListCache w' = None /\
  forall env',
    list_requests (trace (snd (run env' getStockList w')))
    = S (list_requests (trace w')).
Proof.
  intros Hc Hf. cbv zeta.
  assert (Hw : stockListCache (snd (run env getStockList w)) = None /\
               fst (run env getStockList w) = Fulfilled []).
  { rewrite getStockList_run, Hc. cbn. unfold fetched_list in Hf.
    destruct (net env (trace w) TaiwanStockInfo noQuery) as [res|e]; cbn;
      [|split; [exact Hc | reflexivity]].
    destruct (body res) as [[|[l|]]|e]; cbn; try discriminate;
      split; solve [exact Hc | reflexivity]. }
  destruct Hw as [Hw Hr]. split; [exact Hr|]. split; [exact Hw|].
  intros env'. rewrite (getStockList_run env'), Hw. cbn.
  destruct (net env' _ TaiwanStockInfo noQuery) as [res|e]; cbn;
    [|reflexivity].
  destruct (body res) as [[|[l|]]|e]; reflexivity.
Qed.

Lemma failed_list_is_requested_again_witness :
  fst (run offline getStockList initial) = Fulfilled [] /\
  list_requests
    (trace (snd (run offline getStockList
                   (snd (run offline getStockList initial))))) = 2%nat.
Proof.
  destruct (failed_list_is_requested_again offline initial eq_refl eq_refl)
    as [H1 [_ H2]].
  split; [exact H1|]. rewrite (H2 offline). reflexivity.
Defined.

(** A stock list that cannot be fetched does not fail [fetchStockData]:
    with prices and ratios answered, the snapshot is returned with the
    identifier where the name would be. *)
Theorem fetchStockData_name_falls_back (env : Env) (w : World)
  (stockId : jsstring) (init : list Price.row) (latest : Price.row) :
  stockListCache w = None ->
  answers (net env (trace w) TaiwanStockPrice (stock_history stockId))
    (Some (init ++ [latest])) ->
  (forall t, exists perData,
      answers (net env t TaiwanStockPER (stock_history stockId)) perData) ->
  (forall t, fetched_list (net env t TaiwanStockInfo noQuery) = None) ->
  exists d,
    fst (run env (fetchStockData stockId) w) =
    Fulfilled {| StockInfo.id := stockId; StockInfo.error := None;
                 StockInfo.fields := Some d;
                 StockInfo.status := Some (js "success") |} /\
    StockInfo.name d = stockId.
Proof.
  intros Hc Hprice Hper Hlist.
  destruct (fetchStockData_success env w stockId init latest Hprice Hper)
    as [name [per [pbr [Hname E]]]].
  eexists. split; [exact E|]. cbn.
  rewrite fetchStockName_lookup in Hname. injection Hname as <-.
  rewrite stockList_fetched by exact Hc. cbn [log trace].
  rewrite Hlist. reflexivity.
Qed.

Lemma fetchStockData_name_falls_back_witness :
  exists d,
    fst (run no_list (fetchStockData (js "2330")) initial) =
    Fulfilled {| StockInfo.id := js "2330"; StockInfo.error := None;
                 StockInfo.fields := Some d;
                 StockInfo.status := Some (js "success") |} /\
    StockInfo.name d = js "2330".
Proof.
  apply (fetchStockData_name_falls_back no_list initial (js "2330")
           [bar "2024-01-02" 100] (bar "2024-01-03" 105)).
  - reflexivity.
  - eexists. split; reflexivity.
  - intros t. eexists. eexists. split; reflexivity.
  - intros t. reflexivity.
Defined.

(* ================================================================== *)
(** ** The snapshot of one stock, whatever the answers *)

(** A request fails, or is answered with a value that is not null. *)
Lemma failure_or_answers {d : Dataset} (r : Settled (Response d)) :
  failure false r \/ exists data, answers r data.
Proof.
  destruct r as [res|e]; [|left; constructor].
  destruct (body res) as [[|data]|e] eqn:Hb.
  - left. apply null_failure. exact Hb.
  - right. exists data, res. split; [reflexivity | exact Hb].
  - left. eapply parse_failure. exact Hb.
Qed.

(** Every result of [fetchStockData], by cases on the answers. *)
Lemma fetchStockData_result (env : Env) (w : World) (stockId : jsstring) :
  exists r,
    fst (run env (fetchStockData stockId) w) = Fulfilled r /\
    StockInfo.id r = stockId /\
    ((StockInfo.error r = Some true /\ StockInfo.fields r = None /\
      StockInfo.status r = None) \/
     (StockInfo.error r = None /\
      StockInfo.status r = Some (js "success") /\
      exists d init latest,
        StockInfo.fields r = Some d /\
        StockInfo.history d = init ++ [latest] /\
        StockInfo.price d = Price.close latest /\
        StockInfo.volume d = Price.Trading_Volume latest /\
        StockInfo.lastUpdate d = Price.date latest /\
        (StockInfo.per d = None <-> StockInfo.pbr d = None))).
Proof.
  assert (Herr : forall r, r = stock_error stockId ->
            StockInfo.id r = stockId /\
            ((StockInfo.error r = Some true /\ StockInfo.fields r = None /\
              StockInfo.status r = None) \/
             (StockInfo.error r = None /\
              StockInfo.status r = Some (js "success") /\
              exists d init latest,
                StockInfo.fields r = Some d /\
                StockInfo.history d = init ++ [latest] /\
                StockInfo.price d = Price.close latest /\
                StockInfo.volume d = Price.Trading_Volume latest /\
                StockInfo.lastUpdate d = Price.date latest /\
                (StockInfo.per d = None <-> StockInfo.pbr d = None)))).
  { intros r ->. split; [reflexivity | left; repeat split]. }
  destruct (failure_or_answers
              (net env (trace w) TaiwanStockPrice (stock_history stockId)))
    as [Hf|[data Ha]].
  { eexists. split; [exact (fetchStockData_failure env w stockId Hf)|].
    apply Herr. reflexivity. }
  destruct (some_rows data) as [rows|] eqn:Hrows.
  2:{ eexists. split; [exact (fetchStockData_nodata env w stockId Ha Hrows)|].
      apply Herr. reflexivity. }
  destruct (some_rows_last data Hrows) as [-> [init [latest ->]]].
  destruct Ha as [res [Hr Hb]]. unfold fetchStockData.
  fold (stock_history stockId). repeat run_step.
  destruct (fetchStockName_fulfils env
              (log (Requested TaiwanStockPrice (stock_history stockId)) w)
              stockId) as [name Hname].
  destruct (run env (fetchStockName stockId) _) as [rn w2].
  cbn [fst] in Hname. subst rn.
  rewrite Hr. cbn [bind await]. repeat run_step. rewrite Hb.
  cbn [get_data bind]. rewrite Hrows. repeat run_step.
  destruct (net env (trace w2) TaiwanStockPER (stock_history stockId))
    as [pres|e]; [|eexists; split; [reflexivity | apply Herr; reflexivity]].
  cbn [bind await]. repeat run_step.
  destruct (body pres) as [[|perData]|e];
    try (eexists; split; [reflexivity | apply Herr; reflexivity]).
  cbn [get_data bind]. repeat run_step. rewrite item_last.
  cbn [defined run fst].
  eexists. split; [reflexivity|]. split; [reflexivity|]. right.
  split; [reflexivity|]. split; [reflexivity|].
  eexists. exists init, latest. split; [reflexivity|]. cbn.
  repeat (split; [reflexivity|]).
  match goal with
  | |- context [@some_rows ?A ?x] => destruct (@some_rows A x) as [prow|]
  end; [|split; reflexivity].
  destruct (item prow (len prow - 1)); cbn; split; congruence.
Qed.

(** [fetchStockData] returns either the error flag alone, or a snapshot
    with every field: no error flag, status success, a history that is not
    empty, and the price, volume and date of the last row of that history;
    the ratios are both there or both missing.  Either way the result
    carries the identifier it was asked for. *)
Theorem fetchStockData_shape (env : Env) (w : World) (stockId : jsstring) :
  exists r,
    fst (run env (fetchStockData stockId) w) = Fulfilled r /\
    StockInfo.id r = stockId /\
    ((StockInfo.error r = Some true /\ StockInfo.fields r = None /\
      StockInfo.status r = None) \/
     (StockInfo.error r = None /\
      StockInfo.status r = Some (js "success") /\
      exists d init latest,
        StockInfo.fields r = Some d /\
        StockInfo.history d = init ++ [latest] /\
        StockInfo.price d = Price.close latest /\
        StockInfo.volume d = Price.Trading_Volume latest /\
        StockInfo.lastUpdate d = Price.date latest /\
        (StockInfo.per d = None <-> StockInfo.pbr d = None))).
Proof. exact (fetchStockData_result env w stockId). Qed.

(** ** The requests a snapshot costs *)

Lemma getStockList_requests (env : Env) (w : World) (d : Dataset) :
  d <> TaiwanStockInfo ->
  requests_of d (trace (snd (run env getStockList w))) = requests_of d (trace w).
Proof.
  intros Hd. rewrite getStockList_run.
  assert (E : Dataset_eqb d TaiwanStockInfo = false)
    by (destruct d; congruence || reflexivity).
  destruct (stockListCache w); [reflexivity|]. cbn.
  destruct (net env (trace w) TaiwanStockInfo noQuery) as [res|e]; cbn;
    [|rewrite E; reflexivity].
  destruct (body res) as [[|[l|]]|e]; cbn; rewrite E; reflexivity.
Qed.

Lemma fetchStockName_requests (env : Env) (w : World) (stockId : jsstring)
  (d : Dataset) :
  d <> TaiwanStockInfo ->
  requests_of d (trace (snd (run env (fetchStockName stockId) w)))
  = requests_of d (trace w).
Proof.
  intros Hd. unfold fetchStockName. rewrite run_bind.
  pose proof (getStockList_requests env w Hd) as H.
  pose proof (getStockList_fulfils env w) as Hl.
  destruct (run env getStockList w) as [r w']. cbn [fst snd] in *. subst r.
  destruct (find _ (stockList env w)); exact H.
Qed.

(** [fetchStockData] sends one request for the prices, and one for the
    ratios only when the prices were answered with rows: without prices it
    returns before it asks for the ratios. *)
Theorem fetchStockData_requests (env : Env) (w : World) (stockId : jsstring) :
  let w' := snd (run env (fetchStockData stockId) w) in
  requests_of TaiwanStockPrice (trace w')
  = S (requests_of TaiwanStockPrice (trace w)) /\
  requests_of TaiwanStockPER (trace w')
  = (requests_of TaiwanStockPER (trace w)
     + if has_rows (net env (trace w) TaiwanStockPrice (stock_history stockId))
       then 1 else 0)%nat.
Proof.
  cbv zeta. unfold fetchStockData. fold (stock_history stockId).
  repeat run_step.
  pose proof (fetchStockName_requests env
                (log (Requested TaiwanStockPrice (stock_history stockId)) w)
                stockId (d := TaiwanStockPrice) ltac:(discriminate)) as Hp.
  pose proof (fetchStockName_requests env
                (log (Requested TaiwanStockPrice (stock_history stockId)) w)
                stockId (d := TaiwanStockPER) ltac:(discriminate)) as Hr.
  destruct (fetchStockName_fulfils env
              (log (Requested TaiwanStockPrice (stock_history stockId)) w)
              stockId) as [name Hname].
  destruct (run env (fetchStockName stockId) _) as [rn w2].
  cbn [fst snd log trace requests_of Dataset_eqb] in *. subst rn.
  unfold has_rows.
  assert (Hdone : forall (r : Settled StockInfo.result) (w3 : World) (n : nat),
             requests_of TaiwanStockPrice (trace w3)
             = requests_of TaiwanStockPrice (trace w2) ->
             requests_of TaiwanStockPER (trace w3)
             = (requests_of TaiwanStockPER (trace w2) + n)%nat ->
             requests_of TaiwanStockPrice (trace (snd (r, w3)))
             = S (requests_of TaiwanStockPrice (trace w)) /\
             requests_of TaiwanStockPER (trace (snd (r, w3)))
             = (requests_of TaiwanStockPER (trace w) + n)%nat).
  { intros r w3 n H1 H2. cbn [snd]. split; lia. }
  destruct (net env (trace w) TaiwanStockPrice (stock_history stockId))
    as [res|e]; cbn [bind await run try_catch];
    [|apply Hdone; [reflexivity | lia]].
  repeat run_step.
  destruct (body res) as [[|data]|e]; cbn [bind await get_data run try_catch];
    try (apply Hdone; [reflexivity | lia]).
  match goal with
  | |- context [@some_rows ?A ?x] =>
      destruct (@some_rows A x) as [rows|] eqn:Hrows
  end; [|apply Hdone; [reflexivity | lia]].
  repeat run_step.
  destruct (net env (trace w2) TaiwanStockPER (stock_history stockId))
    as [pres|e]; cbn [bind await run try_catch];
    [|apply Hdone; cbn; [reflexivity | lia]].
  repeat run_step.
  destruct (body pres) as [[|perData]|e];
    cbn [bind await get_data run try_catch];
    try (apply Hdone; cbn; [reflexivity | lia]).
  repeat run_step.
  destruct (item rows (len rows - 1));
    cbn [defined bind run]; apply Hdone; cbn; first [reflexivity | lia].
Qed.

(* ================================================================== *)
(** ** What the other fetches touch *)

(** [fetchMarketIndex] leaves the cache alone and sends one request.  It
    writes to the console exactly when it returns the error status, and
    then what it writes is the error it caught. *)
Theorem fetchMarketIndex_effects (env : Env) (w : World) :
  let w' := snd (run env fetchMarketIndex w) in
  exists r,
    fst (run env fetchMarketIndex w) = Fulfilled r /\
    stockListCache w' = stockListCache w /\
    ((str_eqb (MarketIndex.status r) (js "error") = false /\
      trace w' = Requested TaiwanStockPrice taiex :: trace w) \/
     (MarketIndex.status r = js "error" /\
      exists e,
        trace w' = Logged (js "TAIEX Fetch Error:") e
                   :: Requested TaiwanStockPrice taiex :: trace w)).
Proof.
  cbv zeta. unfold fetchMarketIndex. fold taiex. repeat run_step.
  destruct (net env (trace w) TaiwanStockPrice taiex) as [res|e];
    cbn [bind await run try_catch];
    [|eexists; split; [reflexivity|]; split; [reflexivity|];
      right; split; [reflexivity | eexists; reflexivity]].
  destruct (ok res); cbn [negb];
    [|eexists; split; [reflexivity|]; split; [reflexivity|];
      right; split; [reflexivity | eexists; reflexivity]].
  repeat run_step.
  destruct (body res) as [[|data]|e]; cbn [bind await get_data run try_catch];
    try (eexists; split; [reflexivity|]; split; [reflexivity|];
         right; split; [reflexivity | eexists; reflexivity]).
  match goal with
  | |- context [@some_rows ?A ?x] =>
      destruct (@some_rows A x) as [rows|] eqn:Hrows
  end.
  - destruct (some_rows_last _ Hrows) as [_ [init [latest ->]]].
    repeat run_step. rewrite item_last. cbn [defined bind run fst snd].
    eexists. split; [reflexivity|]. split; [reflexivity|].
    left. split; reflexivity.
  - eexists. split; [reflexivity|]. split; [reflexivity|].
    left. split; reflexivity.
Qed.

(** The two flow operations leave the cache alone, send one request, and
    write nothing to the console, also when they fail. *)
Theorem flow_calls_are_silent (env : Env) (w : World) (stockId : jsstring) :
  (stockListCache (snd (run env fetchInstitutionalInvestors w))
   = stockListCache w /\
   trace (snd (run env fetchInstitutionalInvestors w))
   = Requested TaiwanStockTotalInstitutionalInvestors market_flow :: trace w) /\
  (stockListCache (snd (run env (fetchStockInstitutionalData stockId) w))
   = stockListCache w /\
   trace (snd (run env (fetchStockInstitutionalData stockId) w))
   = Requested TaiwanStockInstitutionalInvestors (stock_flow stockId)
     :: trace w).
Proof.
  split.
  - unfold fetchInstitutionalInvestors. fold market_flow. repeat run_step.
    destruct (net env (trace w) TaiwanStockTotalInstitutionalInvestors
                market_flow) as [res|e];
      cbn [bind await run try_catch]; [|split; reflexivity].
    destruct (ok res); cbn [negb]; [|split; reflexivity].
    repeat run_step.
    destruct (body res) as [[|data]|e];
      cbn [bind await get_data run try_catch]; try (split; reflexivity).
    match goal with
    | |- context [@some_rows ?A ?x] =>
        destruct (@some_rows A x) as [rows|] eqn:Hrows
    end; [|split; reflexivity].
    destruct (some_rows_last _ Hrows) as [_ [init [last ->]]].
    repeat run_step. rewrite item_last. split; reflexivity.
  - unfold fetchStockInstitutionalData. fold (stock_flow stockId).
    repeat run_step.
    destruct (net env (trace w) TaiwanStockInstitutionalInvestors
                (stock_flow stockId)) as [res|e];
      cbn [bind await run try_catch]; [|split; reflexivity].
    repeat run_step.
    destruct (body res) as [[|data]|e];
      cbn [bind await get_data run try_catch]; try (split; reflexivity).
    match goal with
    | |- context [@some_rows ?A ?x] =>
        destruct (@some_rows A x) as [rows|] eqn:Hrows
    end; [|split; reflexivity].
    destruct (some_rows_last _ Hrows) as [_ [init [last ->]]].
    repeat run_step. rewrite item_last. cbn [defined bind run fst snd].
    destruct (fold_left accumulate _ _) as [[foreign trust] dealer].
    split; reflexivity.
Qed.

(* ================================================================== *)
(** ** Resolution returns what the query matched *)


(* ================================================================== *)
(** ** From a name to its identifier and back *)

Lemma NoDup_map_eq {A B : Type} (f : A -> B) (l : list A) (a b : A) :
  NoDup (map f l) -> In a l -> In b l -> f a = f b -> a = b.
Proof.
  induction l as [|x l IH]; intros Hnd Ha Hb Hf; [destruct Ha|].
  cbn in Hnd. inversion Hnd as [|y l' Hx Hl]; subst.
  destruct Ha as [<-|Ha], Hb as [<-|Hb]; auto.
  - exfalso. apply Hx. rewrite Hf. apply in_map; exact Hb.
  - exfalso. apply Hx. rewrite <- Hf. apply in_map; exact Ha.
Qed.

(** A list that has an entry is in the cache once it was returned. *)
Lemma getStockList_caches (env : Env) (w : World) (m : Info.row) :
  In m (stockList env w) ->
  stockListCache (snd (run env getStockList w)) = Some (stockList env w).
Proof.
  unfold stockList. rewrite getStockList_run.
  destruct (stockListCache w) as [l|] eqn:Hc; cbn; [intros _; exact Hc|].
  destruct (net env (trace w) TaiwanStockInfo noQuery) as [res|e]; cbn;
    [|intros []].
  destruct (body res) as [[|[l|]]|e]; cbn; try (intros []).
  reflexivity.
Qed.

Lemma resolveStockId_world (env : Env) (w : World) (query : jsstring) :
  trim query <> [] -> test_digits (trim query) = false ->
  snd (run env (resolveStockId query) w) = snd (run env getStockList w).
Proof.
  intros Hne Hd. unfold resolveStockId.
  destruct (trim query) as [|c t]; [congruence|]. cbn [falsy]. rewrite Hd.
  rewrite run_bind.
  pose proof (getStockList_fulfils env w) as Hl.
  destruct (run env getStockList w) as [r w']. cbn [fst snd] in *. subst r.
  destruct (find _ (stockList env w)); [reflexivity|].
  destruct (find _ (stockList env w)); reflexivity.
Qed.

Lemma fetchStockName_world (env : Env) (w : World) (stockId : jsstring) :
  snd (run env (fetchStockName stockId) w) = snd (run env getStockList w).
Proof.
  unfold fetchStockName. rewrite run_bind.
  pose proof (getStockList_fulfils env w) as Hl.
  destruct (run env getStockList w) as [r w']. cbn [fst snd] in *. subst r.
  destruct (find _ (stockList env w)); reflexivity.
Qed.

(** On a list whose identifiers are distinct, a listed name that is not
    padded with white space, not a number, and not the identifier of an
    entry resolves to an identifier whose listed name is that name again. *)
Theorem name_to_id_and_back (env : Env) (w : World) (m : Info.row) :
  let L := stockList env w in
  let n := Info.stock_name m in
  In m L ->
  NoDup (map Info.stock_id L) ->
  trim n = n -> n <> [] -> test_digits n = false ->
  (forall s, In s L -> Info.stock_id s <> n) ->
  exists id,
    fst (run env (resolveStockId n) w) = Fulfilled (Some id) /\
    fst (run env (fetchStockName id) (snd (run env (resolveStockId n) w)))
    = Fulfilled n.
Proof.
  intros L n Hin Hnd Htrim Hne Hdig Hids.
  assert (Hne' : trim n <> []) by (rewrite Htrim; exact Hne).
  assert (Hdig' : test_digits (trim n) = false) by (rewrite Htrim; exact Hdig).
  pose proof (resolveStockId_lookup env w n Hne' Hdig') as Hres.
  rewrite Htrim in Hres. fold L in Hres.
  destruct (find (exact_match n) L) as [m1|] eqn:F.
  2:{ exfalso. apply (find_none _ _ F) in Hin. unfold exact_match in Hin.
      fold n in Hin. rewrite str_eqb_refl in Hin. discriminate. }
  apply find_some in F. destruct F as [Hin1 Hm1].
  assert (Hname : Info.stock_name m1 = n).
  { unfold exact_match in Hm1. apply orb_true_iff in Hm1.
    destruct Hm1 as [H|H]; apply str_eqb_eq in H; [exact H|].
    exfalso. exact (Hids m1 Hin1 H). }
  exists (Info.stock_id m1). split; [exact Hres|].
  rewrite (resolveStockId_world env w n Hne' Hdig').
  rewrite fetchStockName_lookup.
  rewrite (stockList_cached env _ (getStockList_caches env w m Hin)).
  fold L.
  destruct (find (fun s => str_eqb (Info.stock_id s) (Info.stock_id m1)) L)
    as [m2|] eqn:G.
  - apply find_some in G. destruct G as [Hin2 Hm2]. apply str_eqb_eq in Hm2.
    rewrite (NoDup_map_eq Info.stock_id L m2 m1 Hnd Hin2 Hin1 Hm2).
    rewrite Hname. reflexivity.
  - exfalso. apply (find_none _ _ G) in Hin1.
    rewrite str_eqb_refl in Hin1. discriminate.
Qed.

Lemma name_to_id_and_back_witness :
  exists id,
    fst (run offline (resolveStockId (Info.stock_name row_2330))
           (cached sample_list))
    = Fulfilled (Some id) /\
    fst (run offline (fetchStockName id)
           (snd (run offline (resolveStockId (Info.stock_name row_2330))
                   (cached sample_list))))
    = Fulfilled (Info.stock_name row_2330).
Proof.
  apply (name_to_id_and_back offline (cached sample_list) row_2330).
  - right; left; reflexivity.
  - repeat constructor; cbn; intros H;
      repeat (destruct H as [H|H]; [apply str_eqb_eq in H; discriminate H|]);
      exact H.
  - reflexivity.
  - discriminate.
  - reflexivity.
  - intros s [<-|[<-|[<-|[]]]]; apply str_eqb_neq; reflexivity.
Defined.

(** On a list whose identifiers are distinct and whose names are distinct,
    the listed name of an identifier resolves back to that identifier, the
    name being not padded, not a number and not an identifier of the
    list. *)
Theorem id_to_name_and_back (env : Env) (w : World) (m : Info.row) :
  let L := stockList env w in
  let n := Info.stock_name m in
  In m L ->
  NoDup (map Info.stock_id L) ->
  NoDup (map Info.stock_name L) ->
  trim n = n -> n <> [] -> test_digits n = false ->
  (forall s, In s L -> Info.stock_id s <> n) ->
  fst (run env (fetchStockName (Info.stock_id m)) w) = Fulfilled n /\
  fst (run env (resolveStockId n)
         (snd (run env (fetchStockName (Info.stock_id m)) w)))
  = Fulfilled (Some (Info.stock_id m)).
Proof.
  intros L n Hin Hids Hnames Htrim Hne Hdig Hnot.
  assert (Hne' : trim n <> []) by (rewrite Htrim; exact Hne).
  assert (Hdig' : test_digits (trim n) = false) by (rewrite Htrim; exact Hdig).
  split.
  - rewrite fetchStockName_lookup. fold L.
    destruct (find (fun s => str_eqb (Info.stock_id s) (Info.stock_id m)) L)
      as [m2|] eqn:G.
    + apply find_some in G. destruct G as [Hin2 Hm2]. apply str_eqb_eq in Hm2.
      rewrite (NoDup_map_eq Info.stock_id L m2 m Hids Hin2 Hin Hm2).
      reflexivity.
    + exfalso. apply (find_none _ _ G) in Hin.
      rewrite str_eqb_refl in Hin. discriminate.
  - rewrite fetchStockName_world.
    rewrite (resolveStockId_lookup env _ n Hne' Hdig'). rewrite Htrim.
    rewrite (stockList_cached env _ (getStockList_caches env w m Hin)).
    fold L.
    destruct (find (exact_match n) L) as [m1|] eqn:F.
    + apply find_some in F. destruct F as [Hin1 Hm1].
      unfold exact_match in Hm1. apply orb_true_iff in Hm1.
      destruct Hm1 as [H|H]; apply str_eqb_eq in H.
      * rewrite (NoDup_map_eq Info.stock_name L m1 m Hnames Hin1 Hin H).
        reflexivity.
      * exfalso. exact (Hnot m1 Hin1 H).
    + exfalso. apply (find_none _ _ F) in Hin. unfold exact_match in Hin.
      fold n in Hin. rewrite str_eqb_refl in Hin. discriminate.
Qed.

Lemma id_to_name_and_back_witness :
  fst (run offline (fetchStockName (js "00632R")) (cached sample_list))
  = Fulfilled (Info.stock_name row_00632R) /\
  fst (run offline (resolveStockId (Info.stock_name row_00632R))
         (snd (run offline (fetchStockName (js "00632R"))
                 (cached sample_list))))
  = Fulfilled (Some (js "00632R")).
Proof.
  apply (id_to_name_and_back offline (cached sample_list) row_00632R).
  - right; right; left; reflexivity.
  - repeat constructor; cbn; intros H;
      repeat (destruct H as [H|H]; [apply str_eqb_eq in H; discriminate H|]);
      exact H.
  - repeat constructor; cbn; intros H;
      repeat (destruct H as [H|H]; [apply str_eqb_eq in H; discriminate H|]);
      exact H.
  - reflexivity.
  - discriminate.
  - reflexivity.
  - intros s [<-|[<-|[<-|[]]]]; apply str_eqb_neq; reflexivity.
Defined.

(* ================================================================== *)
(** ** The prompt and the text of the generative-AI call *)

Lemma slice_last_suffix {A : Type} (n : nat) (a : list A) :
  a = firstn (List.length a - n) a ++ slice_last n a /\
  (List.length (slice_last n a) <= n)%nat /\
  (firstn (List.length a - n) a <> [] -> List.length (slice_last n a) = n).
Proof.
  unfold slice_last. split; [symmetry; apply firstn_skipn|].
  rewrite length_skipn. split; [lia|].
  intros H. destruct (Nat.le_gt_cases (List.length a) n) as [Hle|Hgt]; [|lia].
  exfalso. apply H. replace (List.length a - n)%nat with 0%nat by lia.
  reflexivity.
Qed.

(** [getGeminiAnalysis] sends one request, whose prompt carries the last
    ten rows of the history, in order, or all of them when there are fewer;
    it writes to the console only after that request, and leaves the cache
    alone. *)
Theorem getGeminiAnalysis_prompt (Any : Type)
  (JSON_parse : jsstring -> Settled Any) (env : Env) (w : World)
  (stockData : StockInfo.result) (instData : InstitutionalData.result)
  (stock : StockInfo.data) :
  StockInfo.fields stockData = Some stock ->
  let w' := snd (run env (getGeminiAnalysis JSON_parse stockData instData) w) in
  exists p,
    (trace w' = Prompted p :: trace w \/
     exists e,
       trace w' = Logged (js "Gemini Analysis Failed:") e
                  :: Prompted p :: trace w) /\
    stockListCache w' = stockListCache w /\
    (List.length (prompt_recentHistory p) <= 10)%nat /\
    exists older recent,
      StockInfo.history stock = older ++ recent /\
      prompt_recentHistory p =
      map (fun h => (Price.date h, Price.close h, Price.Trading_Volume h))
        recent /\
      (older <> [] -> List.length recent = 10%nat).
Proof.
  intros Hstock. cbv zeta. unfold getGeminiAnalysis.
  rewrite Hstock. cbn [defined bind]. rewrite run_try_catch, run_bind.
  unfold generateContent. cbn [run].
  destruct (slice_last_suffix 10 (StockInfo.history stock))
    as [Hsplit [Hlen Hfull]].
  eexists. split; [|split; [|split]].
  - destruct (ai env (trace w) _) as [response|e]; cbn [await run].
    + rewrite run_await.
      destruct (JSON_parse _) as [v|e]; cbn;
        [left; reflexivity | right; eexists; reflexivity].
    + cbn. right. eexists. reflexivity.
  - destruct (ai env (trace w) _) as [response|e]; cbn [await run].
    + rewrite run_await. destruct (JSON_parse _) as [v|e]; reflexivity.
    + reflexivity.
  - cbn [prompt_recentHistory]. rewrite length_map. exact Hlen.
  - eexists. eexists. split; [exact Hsplit|]. split; [reflexivity|].
    exact Hfull.
Qed.

Lemma getGeminiAnalysis_prompt_witness :
  let w' :=
    snd (run offline
           (getGeminiAnalysis parse_braces sample_stock sample_inst) initial) in
  exists p,
    (trace w' = Prompted p :: trace initial \/
     exists e,
       trace w' = Logged (js "Gemini Analysis Failed:") e
                  :: Prompted p :: trace initial) /\
    (List.length (prompt_recentHistory p) <= 10)%nat.
Proof.
  destruct (getGeminiAnalysis_prompt parse_braces offline initial sample_stock
              sample_inst eq_refl) as [p [Ht [_ [Hl _]]]].
  exists p. split; [exact Ht | exact Hl].
Defined.

(** Given the error flag of [fetchStockData], which has no history,
    [getGeminiAnalysis] throws a TypeError at once: no request is sent and
    nothing is written to the console. *)
Theorem getGeminiAnalysis_without_history (Any : Type)
  (JSON_parse : jsstring -> Settled Any) (env : Env) (w : World)
  (stockData : StockInfo.result) (instData : InstitutionalData.result) :
  StockInfo.fields stockData = None ->
  exists e,
    run env (getGeminiAnalysis JSON_parse stockData instData) w
    = (Rejected e, w) /\
    error_name e = js "TypeError".
Proof.
  intros H. unfold getGeminiAnalysis. rewrite H. cbn.
  eexists. split; reflexivity.
Qed.

Lemma getGeminiAnalysis_without_history_witness :
  exists e,
    run chatty
      (getGeminiAnalysis parse_braces (stock_error (js "2330")) sample_inst)
      initial
    = (Rejected e, initial) /\
    error_name e = js "TypeError".
Proof.
  apply (getGeminiAnalysis_without_history parse_braces chatty initial
           (stock_error (js "2330")) sample_inst).
  reflexivity.
Defined.

(** When the request is answered, [getGeminiAnalysis] settles as
    [JSON.parse] of the text does; a text that is missing or empty counts
    as the text of an empty object. *)
Theorem getGeminiAnalysis_parses_text (Any : Type)
  (JSON_parse : jsstring -> Settled Any) (env : Env) (w : World)
  (stockData : StockInfo.result) (instData : InstitutionalData.result)
  (stock : StockInfo.data) (response : GenerateContentResponse) :
  StockInfo.fields stockData = Some stock ->
  (forall p, ai env (trace w) p = Fulfilled response) ->
  let settles :=
    fst (run env (getGeminiAnalysis JSON_parse stockData instData) w) in
  (forall t, text response = Some t -> t <> [] -> settles = JSON_parse t) /\
  (text response = None \/ text response = Some [] ->
   settles = JSON_parse (js "{}")).
Proof.
  intros Hstock Hai. cbv zeta.
  assert (E : fst (run env (getGeminiAnalysis JSON_parse stockData instData) w)
              = JSON_parse (text_or_braces (text response))).
  { unfold getGeminiAnalysis. rewrite Hstock. cbn [defined bind].
    rewrite run_try_catch, run_bind. unfold generateContent. cbn [run].
    rewrite Hai. cbn [await run]. rewrite run_await.
    destruct (JSON_parse _); reflexivity. }
  rewrite E. split.
  - intros t Ht Hne. rewrite Ht. destruct t; [congruence | reflexivity].
  - intros [Ht|Ht]; rewrite Ht; reflexivity.
Qed.

Lemma getGeminiAnalysis_parses_text_witness :
  fst (run speechless
         (getGeminiAnalysis parse_braces sample_stock sample_inst) initial)
  = Fulfilled tt.
Proof.
  destruct (getGeminiAnalysis_parses_text parse_braces speechless initial
              sample_stock sample_inst (response := {| text := None |})
              eq_refl (fun p => eq_refl)) as [_ H].
  rewrite H by (left; reflexivity). reflexivity.
Defined.

(* ================================================================== *)
(** ** The search handler *)

Lemma resolveStockId_fulfils (env : Env) (w : World) (query : jsstring) :
  exists r, fst (run env (resolveStockId query) w) = Fulfilled r.
Proof.
  unfold resolveStockId.
  destruct (falsy (trim query)); [eexists; reflexivity|].
  destruct (test_digits (trim query)); [eexists; reflexivity|].
  rewrite run_bind.
  pose proof (getStockList_fulfils env w) as Hl.
  destruct (run env getStockList w) as [r w']. cbn [fst] in Hl. subst r.
  destruct (find _ (stockList env w)); [eexists; reflexivity|].
  destruct (find _ (stockList env w)); eexists; reflexivity.
Qed.



(** ** The search history *)

(** Dropping entries of a history keeps its identifiers distinct. *)
Lemma history_ids_filter (keep : FullData -> bool) (h : list FullData) :
  NoDup (history_ids h) -> NoDup (history_ids (filter keep h)).
Proof.
  unfold history_ids. induction h as [|x h IH]; cbn [map filter]; intros Hnd.
  - constructor.
  - apply NoDup_cons_iff in Hnd. destruct Hnd as [Hx Hh].
    destruct (keep x); cbn [map]; [|exact (IH Hh)].
    apply NoDup_cons; [|exact (IH Hh)].
    intros Hin. apply Hx. apply in_map_iff in Hin.
    destruct Hin as [y [Hy Hin]]. apply filter_In in Hin.
    rewrite <- Hy.
    exact (in_map (fun z => StockInfo.id (stock z)) h y (proj1 Hin)).
Qed.

Lemma NoDup_firstn {A : Type} (n : nat) (l : list A) :
  NoDup l -> NoDup (firstn n l).
Proof.
  intros H. rewrite <- (firstn_skipn n l) in H.
  exact (NoDup_app_remove_r _ _ H).
Qed.

(** The history after a push: the new snapshot first, then the former ones
    in their order without the one of the same identifier, three at most. *)
Lemma push_history_invariant (fullData : FullData) (stockId : jsstring)
  (prev : list FullData) :
  StockInfo.id (stock fullData) = stockId ->
  NoDup (history_ids prev) ->
  (List.length (push_history fullData stockId prev) <= 3)%nat /\
  NoDup (history_ids (push_history fullData stockId prev)) /\
  hd_error (push_history fullData stockId prev) = Some fullData.
Proof.
  intros Hid Hnd. unfold push_history. split; [|split].
  - rewrite length_firstn. lia.
  - unfold history_ids. rewrite <- firstn_map. apply NoDup_firstn.
    cbn [map]. constructor.
    + rewrite Hid. intros Hin. apply in_map_iff in Hin.
      destruct Hin as [z [Hz Hin]]. apply filter_In in Hin.
      destruct Hin as [_ Hne]. rewrite Hz, str_eqb_refl in Hne.
      discriminate.
    + apply history_ids_filter. exact Hnd.
  - reflexivity.
Qed.



(* ================================================================== *)
(** ** Refreshing the market *)

Lemma Promise_all_settled_fulfilled {A B : Type} (f : A -> B) (l : list A) :
  Promise_all_settled (map (fun a => Fulfilled (f a)) l) = Fulfilled (map f l).
Proof.
  induction l as [|a l IH]; [reflexivity|].
  cbn [map Promise_all_settled]. rewrite IH. reflexivity.
Qed.

Lemma map_filter_map {A B : Type} (f : A -> B) (g : B -> A) (p : B -> bool)
  (l : list A) :
  (forall a, g (f a) = a) ->
  map g (filter p (map f l)) = filter (fun a => p (f a)) l.
Proof.
  intros Hg. induction l as [|a l IH]; [reflexivity|].
  cbn [map filter]. destruct (p (f a)); cbn [map]; rewrite IH; [|reflexivity].
  rewrite Hg. reflexivity.
Qed.

(** The snapshots that [refreshMarket] keeps: complete, with no error flag,
    and for identifiers of the list asked for, in its order. *)
Lemma hot_stocks_settle (env : Env) (w : World) (ids : list jsstring) :
  exists stocks,
    Promise_all_settled (map (fun id => fst (run env (fetchStockData id) w)) ids)
    = Fulfilled stocks /\
    (exists keep,
        map StockInfo.id
          (filter (fun s => negb (truthy (StockInfo.error s))) stocks)
        = filter keep ids) /\
    Forall (fun x => StockInfo.error x = None /\ StockInfo.fields x <> None)
      (filter (fun s => negb (truthy (StockInfo.error s))) stocks).
Proof.
  pose (f := fun id =>
               match fst (run env (fetchStockData id) w) with
               | Fulfilled r => r
               | Rejected _ => stock_error id
               end).
  assert (Hf : forall id, fst (run env (fetchStockData id) w) = Fulfilled (f id)).
  { intros id. unfold f.
    destruct (fetchStockData_result env w id) as [r [-> _]]. reflexivity. }
  assert (Hid : forall id, StockInfo.id (f id) = id).
  { intros id. unfold f.
    destruct (fetchStockData_result env w id) as [r [-> [H _]]]. exact H. }
  exists (map f ids). split; [|split].
  - rewrite <- Promise_all_settled_fulfilled. f_equal.
    apply map_ext. exact Hf.
  - eexists. apply map_filter_map. exact Hid.
  - apply Forall_forall. intros x Hx. apply filter_In in Hx.
    destruct Hx as [Hin Hx]. apply in_map_iff in Hin.
    destruct Hin as [id [<- _]]. revert Hx. unfold f.
    destruct (fetchStockData_result env w id)
      as [r [-> [_ [[-> _]|[He [_ [d [_ [_ [Hd _]]]]]]]]]];
      [discriminate|].
    intros _. split; [exact He|]. rewrite Hd. discriminate.
Qed.


(** Also with no network at all: connected, and no hot stock. *)
Example refreshMarket_offline :
  let s' := refreshMarket offline (mounted unit) initial in
  connectionStatus s' = Status_connected /\ hotStocks s' = [] /\
  option_map MarketIndex.status (marketIndex s') = Some (js "error").
Proof. repeat split. Qed.

(* ================================================================== *)
(** ** Results in any schedule *)

Lemma ends_with_any {R : Type} (m : Async R) :
  ends_with (fun _ => True) (fun _ => True) m.
Proof. induction m; cbn; auto. Qed.

Lemma ends_with_bind {A B : Type} (P : A -> Prop) (P' : B -> Prop)
  (Q : JsError -> Prop) (m : Async A) (f : A -> Async B) :
  ends_with P Q m -> (forall a, P a -> ends_with P' Q (f a)) ->
  ends_with P' Q (bind m f).
Proof. intros Hm Hf. induction m; cbn in *; auto. Qed.

Lemma ends_with_try_catch {A : Type} (P : A -> Prop) (Q Q' : JsError -> Prop)
  (m : Async A) (h : JsError -> Async A) :
  ends_with P Q m -> (forall e, Q e -> ends_with P Q' (h e)) ->
  ends_with P Q' (try_catch m h).
Proof. intros Hm Hh. induction m; cbn in *; auto. Qed.

(** What holds in any schedule holds of a call run alone, *)
Lemma ends_with_run {R : Type} (P : R -> Prop) (Q : JsError -> Prop)
  (env : Env) (m : Async R) (w : World) :
  ends_with P Q m ->
  match fst (run env m w) with
  | Fulfilled r => P r
  | Rejected e => Q e
  end.
Proof.
  revert w. induction m as [r|e|d q k IH|d res k IH|k IH|l k IH|label e k IH
                           |p k IH]; cbn [run ends_with]; intros w Hm;
    first [exact Hm | apply IH; apply Hm].
Qed.

(** and of what is left of a call in flight, at each of its steps. *)
Lemma ends_with_advance {R : Type} (P : R -> Prop) (Q : JsError -> Prop)
  (m : Async R) (w : World) :
  ends_with P Q m -> ends_with P Q (fst (advance m w)).
Proof.
  revert w. induction m as [r|e|d q k IH|d res k IH|k IH|l k IH|label e k IH
                           |p k IH]; cbn [advance fst]; intros w Hm;
    first [exact Hm | apply IH; apply Hm].
Qed.

(** A step of the event loop either starts a call or leaves every call in
    flight one that returns. *)
Lemma step_keeps_returning (s s' : System) :
  step s s' -> Forall task_returns (pool s) ->
  Forall task_returns (pool s') \/
  exists (R : Type) (m : Async R),
    pool s' = pool s ++ [task (fst (advance m (world s)))].
Proof.
  intros Hstep Hall.
  destruct Hstep as [R m w p|R d q k r w p1 p2|R d res k w p1 p2
                    |R pr k r w p1 p2]; cbn [pool world] in *.
  - right. exists R, m. reflexivity.
  - left. apply Forall_app in Hall. destruct Hall as [H1 H2].
    inversion H2 as [|t l Ht Hl]; subst.
    apply Forall_app. split; [exact H1|]. constructor; [|exact Hl].
    apply ends_with_advance. apply Ht.
  - left. apply Forall_app in Hall. destruct Hall as [H1 H2].
    inversion H2 as [|t l Ht Hl]; subst.
    apply Forall_app. split; [exact H1|]. constructor; [|exact Hl].
    apply ends_with_advance. apply Ht.
  - left. apply Forall_app in Hall. destruct Hall as [H1 H2].
    inversion H2 as [|t l Ht Hl]; subst.
    apply Forall_app. split; [exact H1|]. constructor; [|exact Hl].
    apply ends_with_advance. apply Ht.
Qed.

Lemma returns_getStockList : returns (fun _ => True) getStockList.
Proof.
  unfold returns, getStockList. cbn [ends_with]. intros [l|]; [exact I|].
  apply ends_with_bind with (P := fun _ => True).
  - apply ends_with_try_catch with (Q := fun _ => True);
      [apply ends_with_any | intros e _; exact I].
  - intros [l|] _; exact I.
Qed.

Ltac any_then :=
  apply ends_with_bind with (P := fun _ => True);
  [apply ends_with_any | intros ? _].


(* ================================================================== *)
(** ** What a search asks of the AI service *)

Lemma asks_no_ai_bind {A B : Type} (m : Async A) (f : A -> Async B) :
  asks_no_ai m -> (forall a, asks_no_ai (f a)) -> asks_no_ai (bind m f).
Proof. intros Hm Hf. induction m; cbn in *; auto. Qed.

Lemma asks_no_ai_try_catch {A : Type} (m : Async A) (h : JsError -> Async A) :
  asks_no_ai m -> (forall e, asks_no_ai (h e)) -> asks_no_ai (try_catch m h).
Proof. intros Hm Hh. induction m; cbn in *; auto. Qed.

Lemma asks_no_ai_run {R : Type} (env : Env) (m : Async R) (w : World) :
  asks_no_ai m -> prompts (trace (snd (run env m w))) = prompts (trace w).
Proof.
  revert w. induction m as [r|e|d q k IH|d res k IH|k IH|l k IH|label e k IH
                           |p k IH]; cbn [run asks_no_ai]; intros w Hm;
    try reflexivity; try contradiction;
    try (rewrite IH by apply Hm; reflexivity).
Qed.

Lemma asks_no_ai_await {A : Type} (p : Settled A) : asks_no_ai (await p).
Proof. destruct p; exact I. Qed.

Lemma asks_no_ai_fetch (d : Dataset) (q : Query) : asks_no_ai (fetch d q).
Proof. intros r. apply asks_no_ai_await. Qed.

Lemma asks_no_ai_res_json (d : Dataset) (res : Response d) :
  asks_no_ai (res_json res).
Proof. apply asks_no_ai_await. Qed.

Lemma asks_no_ai_get_data (d : Dataset) (json : Json d) :
  asks_no_ai (get_data json).
Proof. destruct json; exact I. Qed.

Lemma asks_no_ai_defined {A : Type} (x : option A) : asks_no_ai (defined x).
Proof. destruct x; exact I. Qed.

Lemma asks_no_ai_Promise_all {A B : Type} (a : Async A) (b : Async B) :
  asks_no_ai a -> asks_no_ai b -> asks_no_ai (Promise_all a b).
Proof.
  intros Ha Hb. unfold Promise_all, attempt.
  apply asks_no_ai_bind.
  { apply asks_no_ai_try_catch; [|intros e; exact I].
    apply asks_no_ai_bind; [exact Ha | intros x; exact I]. }
  intros ra. apply asks_no_ai_bind.
  { apply asks_no_ai_try_catch; [|intros e; exact I].
    apply asks_no_ai_bind; [exact Hb | intros x; exact I]. }
  intros rb. destruct ra, rb; exact I.
Qed.

Create HintDb quiet.
#[local] Hint Resolve asks_no_ai_await asks_no_ai_fetch asks_no_ai_res_json
  asks_no_ai_get_data asks_no_ai_defined : quiet.

Ltac quiet :=
  repeat first
    [ exact I
    | progress auto with quiet
    | apply asks_no_ai_try_catch
    | apply asks_no_ai_bind
    | apply asks_no_ai_Promise_all
    | match goal with |- forall _, _ => intro end
    | progress cbv zeta
    | match goal with
      | |- asks_no_ai (if ?x then _ else _) => destruct x
      | |- asks_no_ai (match ?x with _ => _ end) => destruct x
      end ].

Lemma asks_no_ai_getStockList : asks_no_ai getStockList.
Proof. unfold getStockList. cbn [asks_no_ai]. intros [l|]; quiet. Qed.

Lemma asks_no_ai_resolveStockId (query : jsstring) :
  asks_no_ai (resolveStockId query).
Proof.
  unfold resolveStockId. pose proof asks_no_ai_getStockList. quiet.
Qed.

Lemma asks_no_ai_fetchStockName (stockId : jsstring) :
  asks_no_ai (fetchStockName stockId).
Proof.
  unfold fetchStockName. pose proof asks_no_ai_getStockList. quiet.
Qed.

Lemma asks_no_ai_fetchStockInstitutionalData (stockId : jsstring) :
  asks_no_ai (fetchStockInstitutionalData stockId).
Proof. unfold fetchStockInstitutionalData. quiet. Qed.

Lemma asks_no_ai_fetchStockData (stockId : jsstring) :
  asks_no_ai (fetchStockData stockId).
Proof.
  unfold fetchStockData. pose proof (asks_no_ai_fetchStockName stockId).
  quiet.
Qed.

(** Given a snapshot, [getGeminiAnalysis] asks once. *)
Lemma getGeminiAnalysis_asks_once (Any : Type)
  (JSON_parse : jsstring -> Settled Any) (env : Env) (w : World)
  (stockData : StockInfo.result) (instData : InstitutionalData.result)
  (stock : StockInfo.data) :
  StockInfo.fields stockData = Some stock ->
  prompts
    (trace (snd (run env (getGeminiAnalysis JSON_parse stockData instData) w)))
  = S (prompts (trace w)).
Proof.
  intros Hstock. unfold getGeminiAnalysis. rewrite Hstock.
  cbn [defined bind]. rewrite run_try_catch, run_bind.
  unfold generateContent. cbn [run].
  destruct (ai env (trace w) _) as [response|e]; cbn [await run];
    [|reflexivity].
  rewrite run_await. destruct (JSON_parse _); reflexivity.
Qed.


